(** * sloth: the Prometheus YAML spec loader

    A shallow embedding of [internal/prometheus/spec.go]
    ([YAMLSpecLoader.LoadSpec] and [mapSpecToModel]) together with the
    properties of the loader that the specification states.

    Conventions of the embedding:
    - a Go [map[string]string] is a [gmap string string]; a nil map and an
      empty map read the same (lookups and [range] agree), so both are [∅];
    - a Go pointer that is only tested against [nil] and read is an [option];
    - a Go [float64] is its IEEE-754 decoding, [spec_float];
    - a Go result pair [(v, err)] stays a pair of options, so that "nothing
      is returned next to an error" is a property and not a typing fact;
    - a Go [error] coming from foreign code (the YAML library, a plugin) is
      represented by its message. *)

From Stdlib Require Import ZArith NArith String Ascii List SpecFloat Lia.
From stdpp Require Import base gmap strings list pretty.

Local Open Scope string_scope.
Local Open Scope list_scope.

(** ** Go runtime pieces used by the loader *)

Definition float64 : Type := spec_float.
Definition foreign_error : Type := string.

Module fmt.

(** [fmt.Sprintf("%s-%s", a, b)]. *)
Definition Sprintf_s_dash_s (a b : string) : string := a +:+ "-" +:+ b.

Definition digit (n : N) : ascii := ascii_of_N (48 + n `mod` 10).

(** The six digits of [n mod 10^6], zero padded on the left. *)
Definition frac6 (n : N) : string :=
  String (digit (n `div` 100000))
 (String (digit (n `div` 10000))
 (String (digit (n `div` 1000))
 (String (digit (n `div` 100))
 (String (digit (n `div` 10))
 (String (digit n) ""))))).

(** Nearest integer to [num / den], ties to the even neighbour. *)
Definition round_half_even (num den : N) : N :=
  let q := (num `div` den)%N in
  let r := (num `mod` den)%N in
  match (2 * r ?= den)%N with
  | Lt => q
  | Gt => (q + 1)%N
  | Eq => if N.even q then q else (q + 1)%N
  end.

(** [n] counts millionths: the integer part, a point, six digits. *)
Definition fixed6 (n : N) : string :=
  pretty (n `div` 1000000)%N +:+ "." +:+ frac6 (n `mod` 1000000).

Definition sign (s : bool) : string := if s then "-" else "".

(** The magnitude [m * 2^e] in millionths, correctly rounded. *)
Definition millionths (m : positive) (e : Z) : N :=
  match e with
  | Z0 => (Npos m * 1000000)%N
  | Zpos p => (Npos m * 2 ^ Npos p * 1000000)%N
  | Zneg p => round_half_even (Npos m * 1000000) (2 ^ Npos p)
  end.

(** [fmt.Sprintf("%f", x)]: the default precision of the verb is six, the
    decimal expansion is exact before rounding, and the values that are
    not numbers print as words. *)
Definition Sprintf_f (x : float64) : string :=
  match x with
  | S754_nan => "NaN"
  | S754_infinity s => if s then "-Inf" else "+Inf"
  | S754_zero s => sign s +:+ fixed6 0
  | S754_finite s m e => sign s +:+ fixed6 (millionths m e)
  end.

Definition is_number (x : float64) : bool :=
  match x with
  | S754_zero _ | S754_finite _ _ _ => true
  | _ => false
  end.

End fmt.

Module time.
(** [time.Duration] counts nanoseconds. *)
Definition Duration : Type := Z.
Definition Hour : Duration := (60 * 60 * 1000000000)%Z.
End time.

(** ** The declared spec: package [pkg/prometheus/api/v1] *)

Module prometheusv1.

(** Modelled from the spec: the package [pkg/prometheus/api/v1] is not part
    of the sources at hand; the constant is the "single supported literal
      version string" of the input schema, and the records below carry the
    fields that [spec.go] reads, typed as the schema table types them. *)
Definition Version : string := "prometheus/v1".

Module SLIEvents.
Record t := { ErrorQuery : string; TotalQuery : string }.
End SLIEvents.

Module SLIRaw.
Record t := { ErrorRatioQuery : string }.
End SLIRaw.

Module SLIPlugin.
Record t := { ID : string; Options : gmap string string }.
End SLIPlugin.

Module SLI.
Record t := {
  Events : option SLIEvents.t;
  Raw : option SLIRaw.t;
  Plugin : option SLIPlugin.t
}.
End SLI.

Module Alert.
Record t := {
  Disable : bool;
  Labels : gmap string string;
  Annotations : gmap string string
}.
Definition zero : t := {| Disable := false; Labels := ∅; Annotations := ∅ |}.
End Alert.

Module Alerting.
Record t := {
  Name : string;
  Labels : gmap string string;
  Annotations : gmap string string;
  PageAlert : Alert.t;
  TicketAlert : Alert.t
}.
(** What decoding leaves when the [alerting] key is absent. *)
Definition zero : t :=
  {| Name := ""; Labels := ∅; Annotations := ∅;
     PageAlert := Alert.zero; TicketAlert := Alert.zero |}.
End Alerting.

Module SLO.
Record t := {
  Name : string;
  Description : string;
  Objective : float64;
  Labels : gmap string string;
  SLI : SLI.t;
  Alerting : Alerting.t
}.
End SLO.

Module Spec.
Record t := {
  Version : string;
  Service : string;
  Labels : gmap string string;
  SLOs : list SLO.t
}.
(** [prometheusv1.Spec{}]. *)
Definition zero : t :=
  {| Version := ""; Service := ""; Labels := ∅; SLOs := [] |}.
End Spec.

End prometheusv1.

Module prometheuspluginv1.
(** Modelled from the spec: the package [pkg/prometheus/plugin/v1] is not
    part of the sources at hand; the three metadata keys are the ones the
    plugin contract names ("service", "slo", "objective"). *)
Definition SLIPluginMetaService : string := "service".
Definition SLIPluginMetaSLO : string := "slo".
Definition SLIPluginMetaObjective : string := "objective".
End prometheuspluginv1.

(** ** The model and the loader: package [internal/prometheus] *)

Module prometheus.

(** Modelled from the spec: the model types ([SLO], [SLI], [SLIEvents],
    [SLIRaw], [AlertMeta], [SLOGroup], [SLIPlugin]) are declared in files of
    the package that are not part of the sources at hand; the fields are the
    ones [spec.go] and [spec_test.go] write and read, typed as the data
    model of the spec types them. *)
Module SLIEvents.
Record t := { ErrorQuery : string; TotalQuery : string }.
End SLIEvents.

Module SLIRaw.
Record t := { ErrorRatioQuery : string }.
End SLIRaw.

Module SLI.
Record t := { Events : option SLIEvents.t; Raw : option SLIRaw.t }.
Definition zero : t := {| Events := None; Raw := None |}.
Definition with_Events (v : option SLIEvents.t) (s : t) : t :=
  {| Events := v; Raw := Raw s |}.
Definition with_Raw (v : option SLIRaw.t) (s : t) : t :=
  {| Events := Events s; Raw := v |}.
End SLI.

Module AlertMeta.
Record t := {
  Disable : bool;
  Name : string;
  Labels : gmap string string;
  Annotations : gmap string string
  }.
(** [AlertMeta{Disable: true}]. *)
Definition disabled : t :=
  {| Disable := true; Name := ""; Labels := ∅; Annotations := ∅ |}.
End AlertMeta.

Module SLO.
Record t := {
  ID : string;
  Name : string;
  Description : string;
  Service : string;
  TimeWindow : time.Duration;
  Objective : float64;
  Labels : gmap string string;
  SLI : SLI.t;
  PageAlertMeta : AlertMeta.t;
  TicketAlertMeta : AlertMeta.t
  }.
Definition with_SLI (v : SLI.t) (s : t) : t :=
  {| ID := ID s; Name := Name s; Description := Description s;
     Service := Service s; TimeWindow := TimeWindow s;
     Objective := Objective s; Labels := Labels s; SLI := v;
     PageAlertMeta := PageAlertMeta s;
     TicketAlertMeta := TicketAlertMeta s |}.
Definition with_PageAlertMeta (v : AlertMeta.t) (s : t) : t :=
  {| ID := ID s; Name := Name s; Description := Description s;
     Service := Service s; TimeWindow := TimeWindow s;
     Objective := Objective s; Labels := Labels s; SLI := SLI s;
     PageAlertMeta := v;
     TicketAlertMeta := TicketAlertMeta s |}.
Definition with_TicketAlertMeta (v : AlertMeta.t) (s : t) : t :=
  {| ID := ID s; Name := Name s; Description := Description s;
     Service := Service s; TimeWindow := TimeWindow s;
     Objective := Objective s; Labels := Labels s; SLI := SLI s;
     PageAlertMeta := PageAlertMeta s;
     TicketAlertMeta := v |}.
End SLO.

Module SLOGroup.
Record t := { SLOs : list SLO.t }.
End SLOGroup.

Module SLIPlugin.
(** The plugin function: metadata, group labels and options in, a query
    and an error out.  A plugin is taken as a function of these three
    arguments: the context only carries cancellation, and a plugin does not
    write to the maps it is handed. *)
Record t := {
  ID : string;
  Func : gmap string string → gmap string string → gmap string string →
         string * option foreign_error
  }.
End SLIPlugin.

(** Modelled from the spec: [mergeLabels] lives in a file of the package
    that is not part of the sources at hand; the later map wins on a key
    both maps hold, keys of either side are kept. *)
Definition mergeLabels (base over : gmap string string) : gmap string string :=
  over ∪ base.

(** The errors [LoadSpec] builds with [fmt.Errorf], one constructor per
    message; [%w] keeps the wrapped cause. *)
Inductive map_error : Type :=
  | UnknownPlugin (id : string)
    (* "unknown plugin: %q" *)
  | PluginExecutionError (id : string) (cause : foreign_error).
    (* "plugin %q execution error: %w" *)

Inductive error : Type :=
  | EmptySpec
    (* "spec is required" *)
  | MalformedSpec (cause : foreign_error)
    (* "could not unmarshall YAML spec correctly: %w" *)
  | UnsupportedVersion
    (* "invalid spec version, should be %q" *)
  | NoSLOs
    (* "at least one SLO is required" *)
  | MapToModel (cause : map_error).
    (* "could not map to model: %w" *)

Module YAMLSpecLoader.
Record t := { plugins : gmap string SLIPlugin.t }.
End YAMLSpecLoader.

Definition NewYAMLSpecLoader (plugins : gmap string SLIPlugin.t) : YAMLSpecLoader.t :=
  {| YAMLSpecLoader.plugins := plugins |}.

(** ** [LoadSpec] and [mapSpecToModel] *)

Section Loader.

(** [yaml.Unmarshal(data, &s)] of gopkg.in/yaml.v2: the decoder is a
    library outside the repository; it receives the bytes and the value
    to fill, and gives back the filled value and the error. *)
Variable yaml_Unmarshal :
  list Byte.byte → prometheusv1.Spec.t → prometheusv1.Spec.t * option foreign_error.

(** The composite literal that opens the loop body. *)
Definition newSLO (spec : prometheusv1.Spec.t) (specSLO : prometheusv1.SLO.t) : SLO.t :=
  {| SLO.ID := fmt.Sprintf_s_dash_s (prometheusv1.Spec.Service spec)
                                     (prometheusv1.SLO.Name specSLO);
     SLO.Name := prometheusv1.SLO.Name specSLO;
     SLO.Description := prometheusv1.SLO.Description specSLO;
     SLO.Service := prometheusv1.Spec.Service spec;
     SLO.TimeWindow := (30 * 24 * time.Hour)%Z;
     SLO.Objective := prometheusv1.SLO.Objective specSLO;
     SLO.Labels := mergeLabels (prometheusv1.Spec.Labels spec)
                               (prometheusv1.SLO.Labels specSLO);
     SLO.SLI := SLI.zero;
     SLO.PageAlertMeta := AlertMeta.disabled;
     SLO.TicketAlertMeta := AlertMeta.disabled |}.

(** [if specSLO.SLI.Events != nil { slo.SLI.Events = ... }] *)
Definition setEvents (specSLO : prometheusv1.SLO.t) (slo : SLO.t) : SLO.t :=
  match prometheusv1.SLI.Events (prometheusv1.SLO.SLI specSLO) with
  | Some ev =>
      SLO.with_SLI
        (SLI.with_Events
           (Some {| SLIEvents.ErrorQuery := prometheusv1.SLIEvents.ErrorQuery ev;
                    SLIEvents.TotalQuery := prometheusv1.SLIEvents.TotalQuery ev |})
           (SLO.SLI slo))
        slo
  | None => slo
  end.

(** [if specSLO.SLI.Raw != nil { slo.SLI.Raw = ... }] *)
Definition setRaw (specSLO : prometheusv1.SLO.t) (slo : SLO.t) : SLO.t :=
  match prometheusv1.SLI.Raw (prometheusv1.SLO.SLI specSLO) with
  | Some raw =>
      SLO.with_SLI
        (SLI.with_Raw
           (Some {| SLIRaw.ErrorRatioQuery := prometheusv1.SLIRaw.ErrorRatioQuery raw |})
           (SLO.SLI slo))
        slo
  | None => slo
  end.

(** The [meta] map literal of the plugin branch. *)
Definition pluginMeta (spec : prometheusv1.Spec.t) (specSLO : prometheusv1.SLO.t)
  : gmap string string :=
  <[prometheuspluginv1.SLIPluginMetaService := prometheusv1.Spec.Service spec]>
  (<[prometheuspluginv1.SLIPluginMetaSLO := prometheusv1.SLO.Name specSLO]>
  (<[prometheuspluginv1.SLIPluginMetaObjective :=
      fmt.Sprintf_f (prometheusv1.SLO.Objective specSLO)]> ∅)).

(** [if specSLO.SLI.Plugin != nil { ... }]: the only part of the body that
    can leave the function. *)
Definition setPlugin (y : YAMLSpecLoader.t) (spec : prometheusv1.Spec.t)
    (specSLO : prometheusv1.SLO.t) (slo : SLO.t) : SLO.t + map_error :=
  match prometheusv1.SLI.Plugin (prometheusv1.SLO.SLI specSLO) with
  | Some p =>
      match YAMLSpecLoader.plugins y !! prometheusv1.SLIPlugin.ID p with
      | None => inr (UnknownPlugin (prometheusv1.SLIPlugin.ID p))
      | Some plugin =>
          let meta := pluginMeta spec specSLO in
          let '(rawQuery, err) :=
            SLIPlugin.Func plugin meta (prometheusv1.Spec.Labels spec)
                           (prometheusv1.SLIPlugin.Options p) in
          match err with
          | Some e => inr (PluginExecutionError (prometheusv1.SLIPlugin.ID p) e)
          | None =>
              inl (SLO.with_SLI
                     (SLI.with_Raw (Some {| SLIRaw.ErrorRatioQuery := rawQuery |})
                                   (SLO.SLI slo))
                     slo)
          end
      end
  | None => inl slo
  end.

(** The [AlertMeta] literal both alert branches build. *)
Definition alertMeta (alerting : prometheusv1.Alerting.t) (alert : prometheusv1.Alert.t)
  : AlertMeta.t :=
  {| AlertMeta.Disable := false;
     AlertMeta.Name := prometheusv1.Alerting.Name alerting;
     AlertMeta.Labels :=
       mergeLabels (prometheusv1.Alerting.Labels alerting)
                   (prometheusv1.Alert.Labels alert);
     AlertMeta.Annotations :=
       mergeLabels (prometheusv1.Alerting.Annotations alerting)
                   (prometheusv1.Alert.Annotations alert) |}.

(** [if !specSLO.Alerting.PageAlert.Disable { slo.PageAlertMeta = ... }] *)
Definition setPageAlert (specSLO : prometheusv1.SLO.t) (slo : SLO.t) : SLO.t :=
  let alerting := prometheusv1.SLO.Alerting specSLO in
  if negb (prometheusv1.Alert.Disable (prometheusv1.Alerting.PageAlert alerting))
  then SLO.with_PageAlertMeta
         (alertMeta alerting (prometheusv1.Alerting.PageAlert alerting)) slo
  else slo.

(** [if !specSLO.Alerting.TicketAlert.Disable { slo.TicketAlertMeta = ... }] *)
Definition setTicketAlert (specSLO : prometheusv1.SLO.t) (slo : SLO.t) : SLO.t :=
  let alerting := prometheusv1.SLO.Alerting specSLO in
  if negb (prometheusv1.Alert.Disable (prometheusv1.Alerting.TicketAlert alerting))
  then SLO.with_TicketAlertMeta
         (alertMeta alerting (prometheusv1.Alerting.TicketAlert alerting)) slo
  else slo.

(** One turn of the [for] loop up to the [append]: the SLO, or the error
    the function returns with. *)
Definition mapSLO (y : YAMLSpecLoader.t) (spec : prometheusv1.Spec.t)
    (specSLO : prometheusv1.SLO.t) : SLO.t + map_error :=
  let slo := newSLO spec specSLO in
  let slo := setEvents specSLO slo in
  let slo := setRaw specSLO slo in
  match setPlugin y spec specSLO slo with
  | inr e => inr e
  | inl slo => inl (setTicketAlert specSLO (setPageAlert specSLO slo))
  end.

(** The loop over [spec.SLOs], with [models] as it stands so far. *)
Fixpoint mapLoop (y : YAMLSpecLoader.t) (spec : prometheusv1.Spec.t)
    (rest : list prometheusv1.SLO.t) (models : list SLO.t)
  : option SLOGroup.t * option map_error :=
  match rest with
  | [] => (Some {| SLOGroup.SLOs := models |}, None)
  | specSLO :: rest' =>
      match mapSLO y spec specSLO with
      | inr e => (None, Some e)
      | inl slo => mapLoop y spec rest' (models ++ [slo])
      end
  end.

Definition mapSpecToModel (y : YAMLSpecLoader.t) (spec : prometheusv1.Spec.t)
  : option SLOGroup.t * option map_error :=
  mapLoop y spec (prometheusv1.Spec.SLOs spec) [].

Definition LoadSpec (y : YAMLSpecLoader.t) (data : list Byte.byte)
  : option SLOGroup.t * option error :=
  if (length data =? 0)%nat then (None, Some EmptySpec)
  else
    let '(s, err) := yaml_Unmarshal data prometheusv1.Spec.zero in
    match err with
    | Some e => (None, Some (MalformedSpec e))
    | None =>
        if bool_decide (prometheusv1.Spec.Version s ≠ prometheusv1.Version)
        then (None, Some UnsupportedVersion)
        else if (length (prometheusv1.Spec.SLOs s) =? 0)%nat
        then (None, Some NoSLOs)
        else
          match mapSpecToModel y s with
          | (_, Some e) => (None, Some (MapToModel e))
          | (m, None) => (m, None)
          end
    end.

End Loader.

End prometheus.

Import prometheus.

(** ** Fixtures: the documents and plugins of [spec_test.go] *)

Module fixtures.

(** A decoder given by a table of documents and what the YAML library
    makes of each: enough of the library to run the loader on the
    documents of the test file. *)
Definition table_Unmarshal
    (table : list (string * (prometheusv1.Spec.t + foreign_error)))
    (data : list Byte.byte) (s : prometheusv1.Spec.t)
  : prometheusv1.Spec.t * option foreign_error :=
  match list_find (λ row, fst row = string_of_list_byte data) table with
  | Some (_, (_, inl decoded)) => (decoded, None)
  | Some (_, (_, inr e)) => (s, Some e)
  | None => (s, Some "yaml: document not in the table")
  end.

Definition dq : string := String (ascii_of_nat 34) "".

(** 99, 99.9 and 99.99 as binary64 values. *)
Definition f99 : float64 := S754_finite false 6966505673588736 (-46).
Definition f99_9 : float64 := S754_finite false 7029837543348634 (-46).
Definition f99_99 : float64 := S754_finite false 7036170730324623 (-46).

Definition alert_off : prometheusv1.Alert.t :=
  {| prometheusv1.Alert.Disable := true;
     prometheusv1.Alert.Labels := ∅;
     prometheusv1.Alert.Annotations := ∅ |}.

Definition alerting_off : prometheusv1.Alerting.t :=
  {| prometheusv1.Alerting.Name := "";
     prometheusv1.Alerting.Labels := ∅;
     prometheusv1.Alerting.Annotations := ∅;
     prometheusv1.Alerting.PageAlert := alert_off;
     prometheusv1.Alerting.TicketAlert := alert_off |}.

Definition sli_plugin (id : string) (opts : gmap string string) : prometheusv1.SLI.t :=
  {| prometheusv1.SLI.Events := None;
     prometheusv1.SLI.Raw := None;
     prometheusv1.SLI.Plugin :=
       Some {| prometheusv1.SLIPlugin.ID := id;
               prometheusv1.SLIPlugin.Options := opts |} |}.

Definition sli_events (e t : string) : prometheusv1.SLI.t :=
  {| prometheusv1.SLI.Events :=
       Some {| prometheusv1.SLIEvents.ErrorQuery := e;
               prometheusv1.SLIEvents.TotalQuery := t |};
     prometheusv1.SLI.Raw := None;
     prometheusv1.SLI.Plugin := None |}.

Definition sli_raw (q : string) : prometheusv1.SLI.t :=
  {| prometheusv1.SLI.Events := None;
     prometheusv1.SLI.Raw := Some {| prometheusv1.SLIRaw.ErrorRatioQuery := q |};
     prometheusv1.SLI.Plugin := None |}.

Definition sli_none : prometheusv1.SLI.t :=
  {| prometheusv1.SLI.Events := None;
     prometheusv1.SLI.Raw := None;
     prometheusv1.SLI.Plugin := None |}.

(** "Spec with SLI plugin should use the plugin correctly." *)
Definition test_plugin : SLIPlugin.t :=
  {| SLIPlugin.ID := "test_plugin";
     SLIPlugin.Func := λ meta labels options,
       ("plugin_raw_expr{service=" +:+ dq +:+ default "" (meta !! "service") +:+ dq
        +:+ ",slo=" +:+ dq +:+ default "" (meta !! "slo") +:+ dq
        +:+ ",objective=" +:+ dq +:+ default "" (meta !! "objective") +:+ dq
        +:+ ",gk1=" +:+ dq +:+ default "" (labels !! "gk1") +:+ dq
        +:+ ",k1=" +:+ dq +:+ default "" (options !! "k1") +:+ dq
        +:+ ",k2=" +:+ dq +:+ default "" (options !! "k2") +:+ dq +:+ "}",
        None) |}.

(** "Spec with SLI plugin that returns an error ..." *)
Definition failing_plugin : SLIPlugin.t :=
  {| SLIPlugin.ID := "test_plugin";
     SLIPlugin.Func := λ _ _ _, ("", Some "something") |}.

Definition plugin_slo (name id : string) (opts : gmap string string) : prometheusv1.SLO.t :=
  {| prometheusv1.SLO.Name := name;
     prometheusv1.SLO.Description := "";
     prometheusv1.SLO.Objective := f99;
     prometheusv1.SLO.Labels := ∅;
     prometheusv1.SLO.SLI := sli_plugin id opts;
     prometheusv1.SLO.Alerting := alerting_off |}.

Definition plugin_spec : prometheusv1.Spec.t :=
  {| prometheusv1.Spec.Version := "prometheus/v1";
     prometheusv1.Spec.Service := "test-svc";
     prometheusv1.Spec.Labels := {[ "gk1" := "gv1" ]};
     prometheusv1.Spec.SLOs :=
       [ plugin_slo "slo-test" "test_plugin" (<["k1" := "v1"]> {[ "k2" := "true" ]}) ] |}.

(** "Spec without unknown SLI plugin should fail." *)
Definition unknown_plugin_spec : prometheusv1.Spec.t :=
  {| prometheusv1.Spec.Version := "prometheus/v1";
     prometheusv1.Spec.Service := "test-svc";
     prometheusv1.Spec.Labels := ∅;
     prometheusv1.Spec.SLOs := [ plugin_slo "slo" "unknown_plugin" ∅ ] |}.

(** "Correct spec should return the models correctly." *)
Definition slo1 : prometheusv1.SLO.t :=
  {| prometheusv1.SLO.Name := "slo1";
     prometheusv1.SLO.Description := "This is a test.";
     prometheusv1.SLO.Objective := f99_99;
     prometheusv1.SLO.Labels := {[ "category" := "test" ]};
     prometheusv1.SLO.SLI := sli_events "test_expr_error_1" "test_expr_total_1";
     prometheusv1.SLO.Alerting :=
       {| prometheusv1.Alerting.Name := "testAlert";
          prometheusv1.Alerting.Labels := {[ "tier" := "1" ]};
          prometheusv1.Alerting.Annotations := {[ "runbook" := "http://whatever.com" ]};
          prometheusv1.Alerting.PageAlert :=
            {| prometheusv1.Alert.Disable := false;
               prometheusv1.Alert.Labels :=
                 <["severity" := "slack"]> {[ "channel" := "#a-myteam" ]};
               prometheusv1.Alert.Annotations :=
                 {[ "message" := "This is very important." ]} |};
          prometheusv1.Alerting.TicketAlert :=
            {| prometheusv1.Alert.Disable := false;
               prometheusv1.Alert.Labels :=
                 <["severity" := "slack"]> {[ "channel" := "#a-not-so-important" ]};
               prometheusv1.Alert.Annotations :=
                 {[ "message" := "This is not very important." ]} |} |} |}.

Definition slo2 : prometheusv1.SLO.t :=
  {| prometheusv1.SLO.Name := "slo2";
     prometheusv1.SLO.Description := "";
     prometheusv1.SLO.Objective := f99_9;
     prometheusv1.SLO.Labels := {[ "category" := "test2" ]};
     prometheusv1.SLO.SLI := sli_raw "test_expr_ratio_2";
     prometheusv1.SLO.Alerting := alerting_off |}.

Definition correct_spec : prometheusv1.Spec.t :=
  {| prometheusv1.Spec.Version := "prometheus/v1";
     prometheusv1.Spec.Service := "test-svc";
     prometheusv1.Spec.Labels := {[ "owner" := "myteam" ]};
     prometheusv1.Spec.SLOs := [ slo1; slo2 ] |}.

(** "Spec with invalid version should fail." and the two before it. *)
Definition bare_slo (name : string) : prometheusv1.SLO.t :=
  {| prometheusv1.SLO.Name := name;
     prometheusv1.SLO.Description := "";
     prometheusv1.SLO.Objective := S754_zero false;
     prometheusv1.SLO.Labels := ∅;
     prometheusv1.SLO.SLI := sli_none;
     prometheusv1.SLO.Alerting := prometheusv1.Alerting.zero |}.

Definition spec_of (version service : string) (slos : list prometheusv1.SLO.t)
  : prometheusv1.Spec.t :=
  {| prometheusv1.Spec.Version := version;
     prometheusv1.Spec.Service := service;
     prometheusv1.Spec.Labels := ∅;
     prometheusv1.Spec.SLOs := slos |}.

(** A declaration with a signal source and no [alerting] key. *)
Definition events_slo_no_alerting : prometheusv1.SLO.t :=
  {| prometheusv1.SLO.Name := "slo";
     prometheusv1.SLO.Description := "";
     prometheusv1.SLO.Objective := f99;
     prometheusv1.SLO.Labels := ∅;
     prometheusv1.SLO.SLI := sli_events "test_expr_error_1" "test_expr_total_1";
     prometheusv1.SLO.Alerting := prometheusv1.Alerting.zero |}.

(** A declaration that sets both [events] and [raw]. *)
Definition events_and_raw_slo : prometheusv1.SLO.t :=
  {| prometheusv1.SLO.Name := "slo";
     prometheusv1.SLO.Description := "";
     prometheusv1.SLO.Objective := f99;
     prometheusv1.SLO.Labels := ∅;
     prometheusv1.SLO.SLI :=
       {| prometheusv1.SLI.Events :=
            Some {| prometheusv1.SLIEvents.ErrorQuery := "test_expr_error_1";
                    prometheusv1.SLIEvents.TotalQuery := "test_expr_total_1" |};
          prometheusv1.SLI.Raw :=
            Some {| prometheusv1.SLIRaw.ErrorRatioQuery := "test_expr_ratio_2" |};
          prometheusv1.SLI.Plugin := None |};
     prometheusv1.SLO.Alerting := alerting_off |}.

(** The documents. *)
Definition doc_wrong : string := ":".

Definition doc_no_version : string :=
"service: test-svc
slos:
- name: something
".

Definition doc_v2 : string :=
"service: test-svc
version: prometheus/v2
slos:
- name: something
".

Definition doc_no_slos : string :=
"service: test-svc
version: prometheus/v1
slos: []
".

Definition doc_unknown_plugin : string :=
"service: test-svc
version: prometheus/v1
slos:
  - name: slo
    objective: 99
    sli:
      plugin:
        id: unknown_plugin
    alerting:
      page_alert:
        disable: true
      ticket_alert:
        disable: true
".

Definition doc_plugin : string :=
"service: test-svc
version: prometheus/v1
labels:
  gk1: gv1
slos:
  - name: slo-test
    objective: 99
    sli:
      plugin:
        id: test_plugin
        options:
          k1: v1
          k2: true
    alerting:
      page_alert:
        disable: true
      ticket_alert:
        disable: true
".

Definition doc_correct : string :=
"version: prometheus/v1
service: test-svc
labels:
  owner: myteam
slos:
  - name: slo1
    labels:
      category: test
    objective: 99.99
    description: This is a test.
    sli:
      events:
        error_query: test_expr_error_1
        total_query: test_expr_total_1
    alerting:
      name: testAlert
      labels:
        tier: '1'
      annotations:
        runbook: http://whatever.com
      page_alert:
        labels:
          severity: slack
          channel: '#a-myteam'
        annotations:
          message: This is very important.
      ticket_alert:
        labels:
          severity: slack
          channel: '#a-not-so-important'
        annotations:
          message: This is not very important.
  - name: slo2
    labels:
      category: test2
    objective: 99.9
    sli:
      raw:
        error_ratio_query: test_expr_ratio_2
    alerting:
      page_alert:
        disable: true
      ticket_alert:
        disable: true
".

Definition doc_no_service : string :=
"version: prometheus/v1
slos:
- name: something
".

Definition doc_no_alerting : string :=
"version: prometheus/v1
service: test-svc
slos:
  - name: slo
    objective: 99
    sli:
      events:
        error_query: test_expr_error_1
        total_query: test_expr_total_1
".

Definition doc_events_and_raw : string :=
"version: prometheus/v1
service: test-svc
slos:
  - name: slo
    objective: 99
    sli:
      events:
        error_query: test_expr_error_1
        total_query: test_expr_total_1
      raw:
        error_ratio_query: test_expr_ratio_2
    alerting:
      page_alert:
        disable: true
      ticket_alert:
        disable: true
".

(** What the YAML library makes of each document. *)
Definition documents : list (string * (prometheusv1.Spec.t + foreign_error)) :=
  [ (doc_wrong, inr "yaml: did not find expected key");
    (doc_no_version, inl (spec_of "" "test-svc" [bare_slo "something"]));
    (doc_v2, inl (spec_of "prometheus/v2" "test-svc" [bare_slo "something"]));
    (doc_no_slos, inl (spec_of "prometheus/v1" "test-svc" []));
    (doc_unknown_plugin, inl unknown_plugin_spec);
    (doc_plugin, inl plugin_spec);
    (doc_correct, inl correct_spec);
    (doc_no_service, inl (spec_of "prometheus/v1" "" [bare_slo "something"]));
    (doc_no_alerting, inl (spec_of "prometheus/v1" "test-svc" [events_slo_no_alerting]));
    (doc_events_and_raw, inl (spec_of "prometheus/v1" "test-svc" [events_and_raw_slo])) ].

Definition Unmarshal := table_Unmarshal documents.

Definition bytes (s : string) : list Byte.byte := list_byte_of_string s.

Definition no_version_spec := spec_of "" "test-svc" [bare_slo "something"].
Definition v2_spec := spec_of "prometheus/v2" "test-svc" [bare_slo "something"].
Definition no_slos_spec := spec_of "prometheus/v1" "test-svc" [].
Definition no_service_spec := spec_of "prometheus/v1" "" [bare_slo "something"].
Definition no_alerting_spec := spec_of "prometheus/v1" "test-svc" [events_slo_no_alerting].
Definition events_and_raw_spec := spec_of "prometheus/v1" "test-svc" [events_and_raw_slo].

(** The loaders of the test table. *)
Definition no_plugins : YAMLSpecLoader.t := NewYAMLSpecLoader ∅.
Definition with_test_plugin : YAMLSpecLoader.t :=
  NewYAMLSpecLoader {[ "test_plugin" := test_plugin ]}.
Definition with_failing_plugin : YAMLSpecLoader.t :=
  NewYAMLSpecLoader {[ "test_plugin" := failing_plugin ]}.

(** The expected models. *)
Definition month : time.Duration := (30 * 24 * time.Hour)%Z.

Definition sli_of_events (e t : string) : SLI.t :=
  {| SLI.Events := Some {| SLIEvents.ErrorQuery := e; SLIEvents.TotalQuery := t |};
     SLI.Raw := None |}.

Definition sli_of_raw (q : string) : SLI.t :=
  {| SLI.Events := None;
     SLI.Raw := Some {| SLIRaw.ErrorRatioQuery := q |} |}.

Definition plugin_query : string :=
  "plugin_raw_expr{service=" +:+ dq +:+ "test-svc" +:+ dq
  +:+ ",slo=" +:+ dq +:+ "slo-test" +:+ dq
  +:+ ",objective=" +:+ dq +:+ "99.000000" +:+ dq
  +:+ ",gk1=" +:+ dq +:+ "gv1" +:+ dq
  +:+ ",k1=" +:+ dq +:+ "v1" +:+ dq
  +:+ ",k2=" +:+ dq +:+ "true" +:+ dq +:+ "}".

Definition plugin_slo_model : SLO.t :=
  {| SLO.ID := "test-svc-slo-test";
     SLO.Name := "slo-test";
     SLO.Description := "";
     SLO.Service := "test-svc";
     SLO.TimeWindow := month;
     SLO.Objective := f99;
     SLO.Labels := {[ "gk1" := "gv1" ]};
     SLO.SLI := sli_of_raw plugin_query;
     SLO.PageAlertMeta := AlertMeta.disabled;
     SLO.TicketAlertMeta := AlertMeta.disabled |}.

Definition plugin_model : SLOGroup.t := {| SLOGroup.SLOs := [ plugin_slo_model ] |}.

Definition slo1_model : SLO.t :=
  {| SLO.ID := "test-svc-slo1";
     SLO.Name := "slo1";
     SLO.Description := "This is a test.";
     SLO.Service := "test-svc";
     SLO.TimeWindow := month;
     SLO.Objective := f99_99;
     SLO.Labels := <["owner" := "myteam"]> {[ "category" := "test" ]};
     SLO.SLI := sli_of_events "test_expr_error_1" "test_expr_total_1";
     SLO.PageAlertMeta :=
       {| AlertMeta.Disable := false;
          AlertMeta.Name := "testAlert";
          AlertMeta.Labels :=
            <["tier" := "1"]> (<["severity" := "slack"]> {[ "channel" := "#a-myteam" ]});
          AlertMeta.Annotations :=
            <["message" := "This is very important."]>
              {[ "runbook" := "http://whatever.com" ]} |};
     SLO.TicketAlertMeta :=
       {| AlertMeta.Disable := false;
          AlertMeta.Name := "testAlert";
          AlertMeta.Labels :=
            <["tier" := "1"]>
              (<["severity" := "slack"]> {[ "channel" := "#a-not-so-important" ]});
          AlertMeta.Annotations :=
            <["message" := "This is not very important."]>
              {[ "runbook" := "http://whatever.com" ]} |} |}.

Definition slo2_model : SLO.t :=
  {| SLO.ID := "test-svc-slo2";
     SLO.Name := "slo2";
     SLO.Description := "";
     SLO.Service := "test-svc";
     SLO.TimeWindow := month;
     SLO.Objective := f99_9;
     SLO.Labels := <["owner" := "myteam"]> {[ "category" := "test2" ]};
     SLO.SLI := sli_of_raw "test_expr_ratio_2";
     SLO.PageAlertMeta := AlertMeta.disabled;
     SLO.TicketAlertMeta := AlertMeta.disabled |}.

Definition correct_model : SLOGroup.t := {| SLOGroup.SLOs := [ slo1_model; slo2_model ] |}.

(** What the loader makes of the three documents that are not in the
    test table. *)
Definition enabled_bare : AlertMeta.t :=
  {| AlertMeta.Disable := false; AlertMeta.Name := "";
     AlertMeta.Labels := ∅; AlertMeta.Annotations := ∅ |}.

Definition no_alerting_slo_model : SLO.t :=
  {| SLO.ID := "test-svc-slo";
     SLO.Name := "slo";
     SLO.Description := "";
     SLO.Service := "test-svc";
     SLO.TimeWindow := month;
     SLO.Objective := f99;
     SLO.Labels := ∅;
     SLO.SLI := sli_of_events "test_expr_error_1" "test_expr_total_1";
     SLO.PageAlertMeta := enabled_bare;
     SLO.TicketAlertMeta := enabled_bare |}.

Definition no_alerting_model : SLOGroup.t :=
  {| SLOGroup.SLOs := [ no_alerting_slo_model ] |}.

Definition events_and_raw_slo_model : SLO.t :=
  {| SLO.ID := "test-svc-slo";
     SLO.Name := "slo";
     SLO.Description := "";
     SLO.Service := "test-svc";
     SLO.TimeWindow := month;
     SLO.Objective := f99;
     SLO.Labels := ∅;
     SLO.SLI :=
       {| SLI.Events := Some {| SLIEvents.ErrorQuery := "test_expr_error_1";
                                SLIEvents.TotalQuery := "test_expr_total_1" |};
          SLI.Raw := Some {| SLIRaw.ErrorRatioQuery := "test_expr_ratio_2" |} |};
     SLO.PageAlertMeta := AlertMeta.disabled;
     SLO.TicketAlertMeta := AlertMeta.disabled |}.

Definition events_and_raw_model : SLOGroup.t :=
  {| SLOGroup.SLOs := [ events_and_raw_slo_model ] |}.

Definition no_service_slo_model : SLO.t :=
  {| SLO.ID := "-something";
     SLO.Name := "something";
     SLO.Description := "";
     SLO.Service := "";
     SLO.TimeWindow := month;
     SLO.Objective := S754_zero false;
     SLO.Labels := ∅;
     SLO.SLI := SLI.zero;
     SLO.PageAlertMeta := enabled_bare;
     SLO.TicketAlertMeta := enabled_bare |}.

Definition no_service_model : SLOGroup.t :=
  {| SLOGroup.SLOs := [ no_service_slo_model ] |}.

(** Two documents beyond the test table: one repeats a name, the other
    declares an empty name and an objective below zero. *)
Definition doc_repeated_name : string :=
"version: prometheus/v1
service: test-svc
slos:
- name: dup
- name: dup
".

Definition doc_odd_fields : string :=
"version: prometheus/v1
service: test-svc
slos:
- name: ''
  objective: -1
".

Definition f_minus_1 : float64 := S754_finite true 4503599627370496 (-52).

Definition odd_slo : prometheusv1.SLO.t :=
  {| prometheusv1.SLO.Name := "";
     prometheusv1.SLO.Description := "";
     prometheusv1.SLO.Objective := f_minus_1;
     prometheusv1.SLO.Labels := ∅;
     prometheusv1.SLO.SLI := sli_none;
     prometheusv1.SLO.Alerting := prometheusv1.Alerting.zero |}.

Definition repeated_name_spec := spec_of "prometheus/v1" "test-svc" [bare_slo "dup"; bare_slo "dup"].
Definition odd_fields_spec := spec_of "prometheus/v1" "test-svc" [odd_slo].

Definition more_documents : list (string * (prometheusv1.Spec.t + foreign_error)) :=
  [ (doc_repeated_name, inl repeated_name_spec);
    (doc_odd_fields, inl odd_fields_spec) ].

Definition Unmarshal_more := table_Unmarshal more_documents.

End fixtures.

(** ** Vocabulary of the statements *)

Section Vocabulary.

Variable yaml_Unmarshal :
  list Byte.byte → prometheusv1.Spec.t → prometheusv1.Spec.t * option foreign_error.

(** The input passes the four checks that come before the mapping, and
    decodes to [s]. *)
Definition gates_pass (data : list Byte.byte) (s : prometheusv1.Spec.t) : Prop :=
  data ≠ [] ∧
  yaml_Unmarshal data prometheusv1.Spec.zero = (s, None) ∧
  prometheusv1.Spec.Version s = prometheusv1.Version ∧
  prometheusv1.Spec.SLOs s ≠ [].

(** [LoadSpec] accepts [data], which decodes to [s], and returns [g]. *)
Definition loads (y : YAMLSpecLoader.t) (data : list Byte.byte)
    (s : prometheusv1.Spec.t) (g : SLOGroup.t) : Prop :=
  yaml_Unmarshal data prometheusv1.Spec.zero = (s, None) ∧
  LoadSpec yaml_Unmarshal y data = (Some g, None).

End Vocabulary.

(** How many of the three signal sources a declaration sets. *)
Definition non_nil {A : Type} (p : option A) : nat :=
  match p with Some _ => 1 | None => 0 end.

Definition variants_set (d : prometheusv1.SLO.t) : nat :=
  let sli := prometheusv1.SLO.SLI d in
  non_nil (prometheusv1.SLI.Events sli) +
  non_nil (prometheusv1.SLI.Raw sli) +
  non_nil (prometheusv1.SLI.Plugin sli).

(** The copies the [events] and [raw] branches make. *)
Definition copyEvents (ev : prometheusv1.SLIEvents.t) : SLIEvents.t :=
  {| SLIEvents.ErrorQuery := prometheusv1.SLIEvents.ErrorQuery ev;
     SLIEvents.TotalQuery := prometheusv1.SLIEvents.TotalQuery ev |}.

Definition copyRaw (raw : prometheusv1.SLIRaw.t) : SLIRaw.t :=
  {| SLIRaw.ErrorRatioQuery := prometheusv1.SLIRaw.ErrorRatioQuery raw |}.

(** A string of the shape [digits.dddddd], with an optional minus sign. *)
Definition six_decimals (str : string) : Prop :=
  ∃ (sg : bool) (n : N) (frac : string),
    str = fmt.sign sg +:+ pretty n +:+ "." +:+ frac ∧
    String.length frac = 6 ∧
    Forall (λ c : ascii, (48 ≤ nat_of_ascii c ≤ 57)%nat) (list_ascii_of_string frac).

(** The plugin branch of a declaration goes through: there is no plugin to
    call, or the plugin is registered and its call returns no error. *)
Definition plugin_ok (y : YAMLSpecLoader.t) (s : prometheusv1.Spec.t)
    (d : prometheusv1.SLO.t) : Prop :=
  match prometheusv1.SLI.Plugin (prometheusv1.SLO.SLI d) with
  | None => True
  | Some p =>
      ∃ plugin q,
        YAMLSpecLoader.plugins y !! prometheusv1.SLIPlugin.ID p = Some plugin ∧
        SLIPlugin.Func plugin (pluginMeta s d) (prometheusv1.Spec.Labels s)
                       (prometheusv1.SLIPlugin.Options p) = (q, None)
  end.

(** The same document head with another list of declarations. *)
Definition with_SLOs (s : prometheusv1.Spec.t) (slos : list prometheusv1.SLO.t)
  : prometheusv1.Spec.t :=
  {| prometheusv1.Spec.Version := prometheusv1.Spec.Version s;
     prometheusv1.Spec.Service := prometheusv1.Spec.Service s;
     prometheusv1.Spec.Labels := prometheusv1.Spec.Labels s;
     prometheusv1.Spec.SLOs := slos |}.

(** Two loaders hold the same plugin for every identifier the declarations
    of [s] name. *)
Definition same_plugins_for (s : prometheusv1.Spec.t) (y1 y2 : YAMLSpecLoader.t) : Prop :=
  ∀ d p,
    d ∈ prometheusv1.Spec.SLOs s →
    prometheusv1.SLI.Plugin (prometheusv1.SLO.SLI d) = Some p →
    YAMLSpecLoader.plugins y1 !! prometheusv1.SLIPlugin.ID p =
    YAMLSpecLoader.plugins y2 !! prometheusv1.SLIPlugin.ID p.

(** ** The loop and the gates *)

Section Properties.

Variable yaml_Unmarshal :
  list Byte.byte → prometheusv1.Spec.t → prometheusv1.Spec.t * option foreign_error.

Abbreviation LoadSpec := (LoadSpec yaml_Unmarshal).
Abbreviation gates_pass := (gates_pass yaml_Unmarshal).
Abbreviation loads := (loads yaml_Unmarshal).

Implicit Types (y : YAMLSpecLoader.t) (s spec : prometheusv1.Spec.t).
Implicit Types (d : prometheusv1.SLO.t) (slo : SLO.t) (g : SLOGroup.t).
Implicit Types (data : list Byte.byte).

(** Every turn that succeeds appends one SLO; the loop ends well exactly
    when every turn does. *)
Lemma mapLoop_ok y spec rest models g :
  mapLoop y spec rest models = (Some g, None) ↔
  ∃ out, Forall2 (λ d slo, mapSLO y spec d = inl slo) rest out ∧
         SLOGroup.SLOs g = models ++ out.
Proof.
  revert models. induction rest as [|d rest IH]; intros models; simpl.
  - split.
    + intros [= <-]. exists []. split; [constructor|]. simpl. by rewrite app_nil_r.
    + intros (out & HF & Hg). inversion HF; subst.
      destruct g as [l]. simpl in Hg. rewrite app_nil_r in Hg. by subst.
  - destruct (mapSLO y spec d) as [slo|e] eqn:Hd.
    + rewrite IH. split.
      * intros (out & HF & Hg). exists (slo :: out). split; [by constructor|].
        by rewrite Hg, <- app_assoc.
      * intros (out & HF & Hg). inversion HF as [|? slo' ? out' H1 H2]; subst.
        assert (slo' = slo) as -> by congruence.
        exists out'. split; [done|]. by rewrite Hg, <- app_assoc.
    + split; [done|]. intros (out & HF & _). inversion HF; congruence.
Qed.

(** The loop ends with the error of the first turn that fails. *)
Lemma mapLoop_err y spec pre d post models e :
  Forall (λ d', ∃ slo, mapSLO y spec d' = inl slo) pre →
  mapSLO y spec d = inr e →
  mapLoop y spec (pre ++ d :: post) models = (None, Some e).
Proof.
  intros Hpre Hd. revert models.
  induction Hpre as [|d' pre [slo Hslo] _ IH]; intros models; simpl.
  - by rewrite Hd.
  - rewrite Hslo. apply IH.
Qed.

(** The loop hands back a group or an error, never both, never neither. *)
Lemma mapLoop_shape y spec rest models :
  (∃ g, mapLoop y spec rest models = (Some g, None)) ∨
  (∃ e, mapLoop y spec rest models = (None, Some e)).
Proof.
  revert models. induction rest as [|d rest IH]; intros models; simpl.
  - left. eauto.
  - destruct (mapSLO y spec d); [apply IH | right; eauto].
Qed.

Lemma length_zero_iff_nil {A} (l : list A) : (length l =? 0)%nat = true ↔ l = [].
Proof. destruct l; simpl; split; done. Qed.

(** Past the gates, [LoadSpec] is [mapSpecToModel] with its error wrapped. *)
Lemma LoadSpec_past_gates y data s :
  gates_pass data s →
  LoadSpec y data =
    match mapSpecToModel y s with
    | (_, Some e) => (None, Some (MapToModel e))
    | (m, None) => (m, None)
    end.
Proof.
  intros (Hdata & Hy & Hv & Hs). unfold prometheus.LoadSpec.
  destruct (length data =? 0)%nat eqn:Hl.
  { apply length_zero_iff_nil in Hl. done. }
  rewrite Hy. rewrite bool_decide_eq_false_2 by (intros H; by apply H).
  destruct (length (prometheusv1.Spec.SLOs s) =? 0)%nat eqn:Hl'.
  { apply length_zero_iff_nil in Hl'. done. }
  done.
Qed.

(** An accepted input passed every gate and every turn of the loop. *)
Lemma LoadSpec_ok_inv y data g :
  LoadSpec y data = (Some g, None) →
  ∃ s, gates_pass data s ∧ mapSpecToModel y s = (Some g, None).
Proof.
  unfold prometheus.LoadSpec.
  destruct (length data =? 0)%nat eqn:Hl; [done|].
  destruct (yaml_Unmarshal data prometheusv1.Spec.zero) as [s [e|]] eqn:Hy; [done|].
  case_bool_decide as Hv; [done|].
  destruct (length (prometheusv1.Spec.SLOs s) =? 0)%nat eqn:Hl'; [done|].
  destruct (mapSpecToModel y s) as [m [e|]] eqn:Hm; [done|].
  intros [= ->]. exists s. split; [|done].
  split; [by intros ->|]. split; [done|].
  split; [destruct (decide (prometheusv1.Spec.Version s = prometheusv1.Version)); done|].
  intros H. rewrite H in Hl'. done.
Qed.

Lemma loads_inv y data s g :
  loads y data s g →
  gates_pass data s ∧
  Forall2 (λ d slo, mapSLO y s d = inl slo)
          (prometheusv1.Spec.SLOs s) (SLOGroup.SLOs g).
Proof.
  intros [Hy Hl]. apply LoadSpec_ok_inv in Hl as (s' & Hg & Hm).
  assert (s' = s) as ->.
  { destruct Hg as (_ & Hy' & _). congruence. }
  split; [done|].
  apply mapLoop_ok in Hm as (out & HF & Hout). simpl in Hout. by rewrite Hout.
Qed.

Lemma loads_intro y data s out :
  gates_pass data s →
  Forall2 (λ d slo, mapSLO y s d = inl slo) (prometheusv1.Spec.SLOs s) out →
  loads y data s {| SLOGroup.SLOs := out |}.
Proof.
  intros Hg HF. split; [apply Hg|].
  rewrite (LoadSpec_past_gates _ _ _ Hg).
  assert (mapSpecToModel y s = (Some {| SLOGroup.SLOs := out |}, None)) as ->; [|done].
  apply mapLoop_ok. by exists out.
Qed.

(** The SLO at a position comes from the declaration at that position. *)
Lemma loads_lookup y data s g i d slo :
  loads y data s g →
  prometheusv1.Spec.SLOs s !! i = Some d →
  SLOGroup.SLOs g !! i = Some slo →
  mapSLO y s d = inl slo.
Proof.
  intros Hl Hd Hslo. apply loads_inv in Hl as [_ HF].
  eapply Forall2_lookup_lr in HF; eauto.
Qed.

(** *** One turn of the loop *)

(** Runs a successful turn symbolically: one goal per way through the
    branches, with the SLO replaced by what the turn built. *)
Ltac run_turn d :=
  unfold mapSLO, setPlugin, setRaw, setEvents, setPageAlert, setTicketAlert;
  destruct d as [name descr obj lbls [ev raw plg] [aname albls aanns [pd pl pa] [td tl ta]]];
  simpl;
  destruct plg as [p|]; simpl;
  [ destruct (YAMLSpecLoader.plugins _ !! _) as [plugin|] eqn:Hp; [|congruence];
    destruct (SLIPlugin.Func plugin _ _ _) as [q [e|]] eqn:Hf; [congruence|] | ];
  intros [= <-]; destruct ev, raw, pd, td; simpl.

(** The outcome of the plugin branch on the SLO built so far. *)
Lemma setPlugin_cases y spec d slo0 :
  match prometheusv1.SLI.Plugin (prometheusv1.SLO.SLI d) with
  | None => setPlugin y spec d slo0 = inl slo0
  | Some p =>
      match YAMLSpecLoader.plugins y !! prometheusv1.SLIPlugin.ID p with
      | None =>
          setPlugin y spec d slo0 = inr (UnknownPlugin (prometheusv1.SLIPlugin.ID p))
      | Some plugin =>
          match SLIPlugin.Func plugin (pluginMeta spec d)
                  (prometheusv1.Spec.Labels spec) (prometheusv1.SLIPlugin.Options p) with
          | (_, Some e) =>
              setPlugin y spec d slo0 =
                inr (PluginExecutionError (prometheusv1.SLIPlugin.ID p) e)
          | (q, None) =>
              setPlugin y spec d slo0 =
                inl (SLO.with_SLI
                       (SLI.with_Raw (Some {| SLIRaw.ErrorRatioQuery := q |})
                                     (SLO.SLI slo0)) slo0)
          end
      end
  end.
Proof.
  unfold setPlugin.
  destruct (prometheusv1.SLI.Plugin (prometheusv1.SLO.SLI d)) as [p|]; [|done].
  destruct (YAMLSpecLoader.plugins y !! prometheusv1.SLIPlugin.ID p) as [plugin|]; [|done].
  by destruct (SLIPlugin.Func plugin _ _ _) as [q [e|]].
Qed.

(** A turn fails exactly when its plugin branch does. *)
Lemma mapSLO_inr y spec d e :
  mapSLO y spec d = inr e ↔
  setPlugin y spec d (setRaw d (setEvents d (newSLO spec d))) = inr e.
Proof.
  unfold mapSLO. destruct (setPlugin y spec d _) as [slo0|e']; split; congruence.
Qed.

(** The fields the later steps of a turn leave alone. *)
Lemma mapSLO_fields y spec d slo :
  mapSLO y spec d = inl slo →
  SLO.ID slo = fmt.Sprintf_s_dash_s (prometheusv1.Spec.Service spec)
                                    (prometheusv1.SLO.Name d) ∧
  SLO.Name slo = prometheusv1.SLO.Name d ∧
  SLO.Description slo = prometheusv1.SLO.Description d ∧
  SLO.Service slo = prometheusv1.Spec.Service spec ∧
  SLO.TimeWindow slo = (30 * 24 * time.Hour)%Z ∧
  SLO.Objective slo = prometheusv1.SLO.Objective d ∧
  SLO.Labels slo = mergeLabels (prometheusv1.Spec.Labels spec)
                               (prometheusv1.SLO.Labels d).
Proof.
  run_turn d; done.
Qed.

(** What a turn leaves in the alert fields. *)
Lemma mapSLO_alerts y spec d slo :
  mapSLO y spec d = inl slo →
  let alerting := prometheusv1.SLO.Alerting d in
  SLO.PageAlertMeta slo =
    (if prometheusv1.Alert.Disable (prometheusv1.Alerting.PageAlert alerting)
     then AlertMeta.disabled
     else alertMeta alerting (prometheusv1.Alerting.PageAlert alerting)) ∧
  SLO.TicketAlertMeta slo =
    (if prometheusv1.Alert.Disable (prometheusv1.Alerting.TicketAlert alerting)
     then AlertMeta.disabled
     else alertMeta alerting (prometheusv1.Alerting.TicketAlert alerting)).
Proof.
  run_turn d; done.
Qed.

(** What a turn leaves in the indicator: the three branches run one after
    the other, each on its own condition. *)
Lemma mapSLO_sli y spec d slo :
  mapSLO y spec d = inl slo →
  SLI.Events (SLO.SLI slo) =
    copyEvents <$> prometheusv1.SLI.Events (prometheusv1.SLO.SLI d) ∧
  match prometheusv1.SLI.Plugin (prometheusv1.SLO.SLI d) with
  | None =>
      SLI.Raw (SLO.SLI slo) =
        copyRaw <$> prometheusv1.SLI.Raw (prometheusv1.SLO.SLI d)
  | Some p =>
      ∃ plugin q,
        YAMLSpecLoader.plugins y !! prometheusv1.SLIPlugin.ID p = Some plugin ∧
        SLIPlugin.Func plugin (pluginMeta spec d) (prometheusv1.Spec.Labels spec)
                       (prometheusv1.SLIPlugin.Options p) = (q, None) ∧
        SLI.Raw (SLO.SLI slo) = Some {| SLIRaw.ErrorRatioQuery := q |}
  end.
Proof.
  run_turn d; (split; [done|]); try done; by exists plugin, q.
Qed.

(** A turn fails only in the plugin branch, in one of two ways. *)
Lemma mapSLO_fails y spec d e :
  mapSLO y spec d = inr e ↔
  ∃ p, prometheusv1.SLI.Plugin (prometheusv1.SLO.SLI d) = Some p ∧
       match YAMLSpecLoader.plugins y !! prometheusv1.SLIPlugin.ID p with
       | None => e = UnknownPlugin (prometheusv1.SLIPlugin.ID p)
       | Some plugin =>
           ∃ q cause,
             SLIPlugin.Func plugin (pluginMeta spec d) (prometheusv1.Spec.Labels spec)
                            (prometheusv1.SLIPlugin.Options p) = (q, Some cause) ∧
             e = PluginExecutionError (prometheusv1.SLIPlugin.ID p) cause
       end.
Proof.
  rewrite mapSLO_inr.
  pose proof (setPlugin_cases y spec d (setRaw d (setEvents d (newSLO spec d)))) as Hc.
  destruct (prometheusv1.SLI.Plugin (prometheusv1.SLO.SLI d)) as [p|].
  2: { rewrite Hc. split; [done|]. intros (p' & [=] & _). }
  transitivity
    (match YAMLSpecLoader.plugins y !! prometheusv1.SLIPlugin.ID p with
     | None => e = UnknownPlugin (prometheusv1.SLIPlugin.ID p)
     | Some plugin =>
         ∃ q cause,
           SLIPlugin.Func plugin (pluginMeta spec d) (prometheusv1.Spec.Labels spec)
                          (prometheusv1.SLIPlugin.Options p) = (q, Some cause) ∧
           e = PluginExecutionError (prometheusv1.SLIPlugin.ID p) cause
     end).
  2: { split; [intros H; by exists p | by intros (p' & [= <-] & H)]. }
  destruct (YAMLSpecLoader.plugins y !! _) as [plugin|].
  - destruct (SLIPlugin.Func plugin _ _ _) as [q [c|]] eqn:Hf; rewrite Hc; split.
    + intros [= <-]. eauto.
    + intros (q' & c' & [= <- <-] & ->). done.
    + done.
    + intros (q' & c' & [=] & _).
  - rewrite Hc. split; [by intros [= <-] | by intros ->].
Qed.

(** With no plugin to call, a turn always produces its SLO. *)
Lemma mapSLO_no_plugin y spec d :
  prometheusv1.SLI.Plugin (prometheusv1.SLO.SLI d) = None →
  ∃ slo, mapSLO y spec d = inl slo.
Proof.
  intros Hp. destruct (mapSLO y spec d) as [slo|e] eqn:H; [eauto|].
  apply mapSLO_fails in H as (p & Hp' & _). congruence.
Qed.

(** *** The [%f] verb *)

Lemma digit_range (n : N) : (48 ≤ nat_of_ascii (fmt.digit n) ≤ 57)%nat.
Proof.
  unfold fmt.digit, nat_of_ascii.
  assert (n `mod` 10 < 10)%N as Hlt by (by apply N.mod_lt).
  generalize dependent (n `mod` 10)%N. intros k Hk.
  rewrite N_ascii_embedding by lia. lia.
Qed.

Lemma frac6_shape (n : N) :
  String.length (fmt.frac6 n) = 6 ∧
  Forall (λ c : ascii, (48 ≤ nat_of_ascii c ≤ 57)%nat)
         (list_ascii_of_string (fmt.frac6 n)).
Proof.
  split; [done|]. unfold fmt.frac6. simpl.
  repeat (constructor; [apply digit_range|]). constructor.
Qed.

(** A number prints with exactly six digits after the point. *)
Lemma Sprintf_f_six_decimals (x : float64) :
  fmt.is_number x = true → six_decimals (fmt.Sprintf_f x).
Proof.
  destruct x as [sg|sg| |sg m e]; simpl; try done; intros _.
  - exists sg, (0 `div` 1000000)%N, (fmt.frac6 (0 `mod` 1000000)).
    split; [done|]. apply frac6_shape.
  - exists sg, (fmt.millionths m e `div` 1000000)%N,
      (fmt.frac6 (fmt.millionths m e `mod` 1000000)).
    split; [done|]. apply frac6_shape.
Qed.

(** The metadata map has the three keys and nothing else. *)
Lemma pluginMeta_eq spec d :
  pluginMeta spec d =
    {[ "service" := prometheusv1.Spec.Service spec;
       "slo" := prometheusv1.SLO.Name d;
       "objective" := fmt.Sprintf_f (prometheusv1.SLO.Objective d) ]}.
Proof. unfold pluginMeta. by rewrite insert_empty. Qed.

(** *** Properties of the loader *)

(** C1 (as amended). For every SLO declaration whose alerting block is
    entirely absent from the input, the SLO produced by [LoadSpec] has
    [PageAlertMeta.Disable = false] and [TicketAlertMeta.Disable = false]
    (the decoded [disable] flags are false, so both alert branches run),
    with an empty name and no labels or annotations. *)
Theorem C1_absent_alerting_enables_both_alerts y data s g i d slo :
  loads y data s g →
  prometheusv1.Spec.SLOs s !! i = Some d →
  SLOGroup.SLOs g !! i = Some slo →
  prometheusv1.SLO.Alerting d = prometheusv1.Alerting.zero →
  SLO.PageAlertMeta slo =
    {| AlertMeta.Disable := false; AlertMeta.Name := "";
       AlertMeta.Labels := ∅; AlertMeta.Annotations := ∅ |} ∧
  SLO.TicketAlertMeta slo =
    {| AlertMeta.Disable := false; AlertMeta.Name := "";
       AlertMeta.Labels := ∅; AlertMeta.Annotations := ∅ |}.
Proof.
  intros Hl Hd Hslo Ha.
  pose proof (loads_lookup _ _ _ _ _ _ _ Hl Hd Hslo) as Hturn.
  apply mapSLO_alerts in Hturn as [Hp Ht]. simpl in Hp, Ht.
  rewrite Hp, Ht, Ha. simpl. unfold alertMeta, mergeLabels. simpl.
  by rewrite (left_id_L ∅ (∪)).
Qed.

(** C2 (as amended). SLI resolution in [LoadSpec] is three independent
    checks run in the order events, raw, plugin, not a first-match chain:
    for every SLO declaration of an accepted input, if [events] is set both
    queries are copied verbatim into [SLI.Events]; if [plugin] is set the
    plugin is looked up and invoked and its result is [SLI.Raw]; if
    [plugin] is not set and [raw] is set the ratio query is copied verbatim
    into [SLI.Raw].  So when more than one variant is present, [events]
    takes effect next to [raw] or [plugin], and [plugin] overrides [raw]. *)
Theorem C2_sli_branches_run_independently y data s g i d slo :
  loads y data s g →
  prometheusv1.Spec.SLOs s !! i = Some d →
  SLOGroup.SLOs g !! i = Some slo →
  SLI.Events (SLO.SLI slo) =
    copyEvents <$> prometheusv1.SLI.Events (prometheusv1.SLO.SLI d) ∧
  match prometheusv1.SLI.Plugin (prometheusv1.SLO.SLI d) with
  | None =>
      SLI.Raw (SLO.SLI slo) =
        copyRaw <$> prometheusv1.SLI.Raw (prometheusv1.SLO.SLI d)
  | Some p =>
      ∃ plugin q,
        YAMLSpecLoader.plugins y !! prometheusv1.SLIPlugin.ID p = Some plugin ∧
        SLIPlugin.Func plugin
          {[ "service" := prometheusv1.Spec.Service s;
             "slo" := prometheusv1.SLO.Name d;
             "objective" := fmt.Sprintf_f (prometheusv1.SLO.Objective d) ]}
          (prometheusv1.Spec.Labels s) (prometheusv1.SLIPlugin.Options p) = (q, None) ∧
        SLI.Raw (SLO.SLI slo) = Some {| SLIRaw.ErrorRatioQuery := q |}
  end.
Proof.
  intros Hl Hd Hslo.
  pose proof (loads_lookup _ _ _ _ _ _ _ Hl Hd Hslo) as Hturn.
  apply mapSLO_sli in Hturn. by rewrite pluginMeta_eq in Hturn.
Qed.

(** C3. For every input accepted by [LoadSpec], a declaration that
    specifies exactly one signal-source variant gives an SLO whose SLI
    has exactly one of [Events] and [Raw] non-nil: never both, never
    neither. *)
Theorem C3_exactly_one_indicator y data s g i d slo :
  loads y data s g →
  prometheusv1.Spec.SLOs s !! i = Some d →
  SLOGroup.SLOs g !! i = Some slo →
  variants_set d = 1 →
  (is_Some (SLI.Events (SLO.SLI slo)) ∧ SLI.Raw (SLO.SLI slo) = None) ∨
  (SLI.Events (SLO.SLI slo) = None ∧ is_Some (SLI.Raw (SLO.SLI slo))).
Proof.
  intros Hl Hd Hslo Hone.
  pose proof (loads_lookup _ _ _ _ _ _ _ Hl Hd Hslo) as Hturn.
  apply mapSLO_sli in Hturn as [Hev Hraw]. unfold variants_set in Hone.
  destruct (prometheusv1.SLI.Events (prometheusv1.SLO.SLI d)) as [ev|],
           (prometheusv1.SLI.Raw (prometheusv1.SLO.SLI d)) as [raw|],
           (prometheusv1.SLI.Plugin (prometheusv1.SLO.SLI d)) as [p|];
    simpl in *; try discriminate Hone.
  - left. rewrite Hev, Hraw. eauto.
  - right. rewrite Hev, Hraw. eauto.
  - right. destruct Hraw as (plugin & q & _ & _ & ->). rewrite Hev. eauto.
Qed.

(** C4. For every SLO declaration using the [plugin] variant with a
    registered plugin, in an accepted input, the plugin function is applied
    to the metadata map holding exactly the service name, the SLO name and
    the objective printed by [%f], which is six digits after the decimal
    point for every number (99 prints as 99.000000), to the top-level group
    labels of the spec (not the labels merged for the SLO) and to the
    declared options; the string it returns is [SLI.Raw.ErrorRatioQuery]. *)
Theorem C4_plugin_invocation y data s g i d slo p plugin :
  loads y data s g →
  prometheusv1.Spec.SLOs s !! i = Some d →
  SLOGroup.SLOs g !! i = Some slo →
  prometheusv1.SLI.Plugin (prometheusv1.SLO.SLI d) = Some p →
  YAMLSpecLoader.plugins y !! prometheusv1.SLIPlugin.ID p = Some plugin →
  let meta : gmap string string :=
    {[ "service" := prometheusv1.Spec.Service s;
       "slo" := prometheusv1.SLO.Name d;
       "objective" := fmt.Sprintf_f (prometheusv1.SLO.Objective d) ]} in
  dom meta = {[ "service"; "slo"; "objective" ]} ∧
  (fmt.is_number (prometheusv1.SLO.Objective d) = true →
   six_decimals (fmt.Sprintf_f (prometheusv1.SLO.Objective d))) ∧
  fmt.Sprintf_f (S754_finite false 6966505673588736 (-46)) = "99.000000" ∧
  ∃ q,
    SLIPlugin.Func plugin meta (prometheusv1.Spec.Labels s)
                   (prometheusv1.SLIPlugin.Options p) = (q, None) ∧
    SLI.Raw (SLO.SLI slo) = Some {| SLIRaw.ErrorRatioQuery := q |}.
Proof.
  intros Hl Hd Hslo Hp Hreg meta.
  split; [|split; [|split]].
  - unfold meta. rewrite !dom_insert_L, dom_singleton_L. set_solver.
  - apply Sprintf_f_six_decimals.
  - by vm_compute.
  - pose proof (loads_lookup _ _ _ _ _ _ _ Hl Hd Hslo) as Hturn.
    apply mapSLO_sli in Hturn as [_ Hraw]. rewrite Hp in Hraw.
    destruct Hraw as (plugin' & q & Hreg' & Hf & Hq).
    assert (plugin' = plugin) as -> by congruence.
    exists q. by rewrite pluginMeta_eq in Hf.
Qed.

(** C5. [LoadSpec] applies its four validation gates in order, each
    leaving the function at once: zero-length input fails with
    [EmptySpec]; input that the decoder rejects fails with [MalformedSpec]
    around the decoder's error (so the input ":", once the decoder rejects
    it); a version field different from the supported literal, the absent
    or empty one included, fails with [UnsupportedVersion]; an absent or
    empty SLO list fails with [NoSLOs]; past the four gates the only
    errors left are those of the mapping. *)
Theorem C5_validation_gates y :
  (∀ data,
     (length data = 0 → LoadSpec y data = (None, Some EmptySpec)) ∧
     (∀ s e,
        length data ≠ 0 →
        yaml_Unmarshal data prometheusv1.Spec.zero = (s, Some e) →
        LoadSpec y data = (None, Some (MalformedSpec e))) ∧
     (∀ s,
        length data ≠ 0 →
        yaml_Unmarshal data prometheusv1.Spec.zero = (s, None) →
        prometheusv1.Spec.Version s ≠ "prometheus/v1" →
        LoadSpec y data = (None, Some UnsupportedVersion)) ∧
     (∀ s,
        length data ≠ 0 →
        yaml_Unmarshal data prometheusv1.Spec.zero = (s, None) →
        prometheusv1.Spec.Version s = "" →
        LoadSpec y data = (None, Some UnsupportedVersion)) ∧
     (∀ s,
        length data ≠ 0 →
        yaml_Unmarshal data prometheusv1.Spec.zero = (s, None) →
        prometheusv1.Spec.Version s = "prometheus/v1" →
        length (prometheusv1.Spec.SLOs s) = 0 →
        LoadSpec y data = (None, Some NoSLOs)) ∧
     (∀ s e,
        length data ≠ 0 →
        yaml_Unmarshal data prometheusv1.Spec.zero = (s, None) →
        prometheusv1.Spec.Version s = "prometheus/v1" →
        length (prometheusv1.Spec.SLOs s) ≠ 0 →
        snd (LoadSpec y data) = Some e →
        ∃ cause, e = MapToModel cause)) ∧
  (∀ s e,
     yaml_Unmarshal (list_byte_of_string ":") prometheusv1.Spec.zero = (s, Some e) →
     LoadSpec y (list_byte_of_string ":") = (None, Some (MalformedSpec e))).
Proof.
  assert (∀ data s,
            length data ≠ 0 →
            yaml_Unmarshal data prometheusv1.Spec.zero = (s, None) →
            prometheusv1.Spec.Version s ≠ "prometheus/v1" →
            LoadSpec y data = (None, Some UnsupportedVersion)) as Hversion.
  { intros data s Hlen Hy Hv. unfold prometheus.LoadSpec.
    destruct data; [done|]. simpl. rewrite Hy.
    by rewrite bool_decide_eq_true_2. }
  split.
  - intros data. repeat split.
    + intros Hlen. unfold prometheus.LoadSpec. by rewrite Hlen.
    + intros s e Hlen Hy. unfold prometheus.LoadSpec.
      destruct data; [done|]. simpl. by rewrite Hy.
    + apply Hversion.
    + intros s Hlen Hy Hv. apply (Hversion data s); [done|done|]. by rewrite Hv.
    + intros s Hlen Hy Hv Hs. unfold prometheus.LoadSpec.
      destruct data; [done|]. simpl. rewrite Hy.
      rewrite bool_decide_eq_false_2 by (intros H; by apply H).
      by rewrite Hs.
    + intros s e Hlen Hy Hv Hs.
      rewrite (LoadSpec_past_gates y data s).
      * destruct (mapSpecToModel y s) as [m [c|]]; simpl; [|done].
        intros [= <-]. eauto.
      * split; [by intros ->|]. split; [done|]. split; [done|].
        by intros Hnil; rewrite Hnil in Hs.
  - intros s e Hy. unfold prometheus.LoadSpec. simpl. by rewrite Hy.
Qed.

(** C6. [LoadSpec] is all-or-nothing: whenever it returns an error no
    group comes with it.  That covers the turn of the loop that stops the
    load: an unregistered plugin identifier gives [UnknownPlugin], a plugin
    that fails gives [PluginExecutionError] around the plugin's own error,
    whatever the declarations before it produced and whatever comes after
    it. *)
Theorem C6_all_or_nothing y data :
  (∀ e, snd (LoadSpec y data) = Some e → fst (LoadSpec y data) = None) ∧
  (∀ s pre d post p,
     gates_pass data s →
     prometheusv1.Spec.SLOs s = pre ++ d :: post →
     Forall (λ d', ∃ slo, mapSLO y s d' = inl slo) pre →
     prometheusv1.SLI.Plugin (prometheusv1.SLO.SLI d) = Some p →
     (YAMLSpecLoader.plugins y !! prometheusv1.SLIPlugin.ID p = None →
      LoadSpec y data =
        (None, Some (MapToModel (UnknownPlugin (prometheusv1.SLIPlugin.ID p))))) ∧
     (∀ plugin q cause,
        YAMLSpecLoader.plugins y !! prometheusv1.SLIPlugin.ID p = Some plugin →
        SLIPlugin.Func plugin
          {[ "service" := prometheusv1.Spec.Service s;
             "slo" := prometheusv1.SLO.Name d;
             "objective" := fmt.Sprintf_f (prometheusv1.SLO.Objective d) ]}
          (prometheusv1.Spec.Labels s) (prometheusv1.SLIPlugin.Options p)
          = (q, Some cause) →
        LoadSpec y data =
          (None, Some (MapToModel
                         (PluginExecutionError (prometheusv1.SLIPlugin.ID p) cause))))).
Proof.
  split.
  - intros e. unfold prometheus.LoadSpec.
    destruct (length data =? 0)%nat; [done|].
    destruct (yaml_Unmarshal data prometheusv1.Spec.zero) as [s [e'|]]; [done|].
    case_bool_decide; [done|].
    destruct (length (prometheusv1.Spec.SLOs s) =? 0)%nat; [done|].
    by destruct (mapSpecToModel y s) as [m [e'|]].
  - intros s pre d post p Hg Hs Hpre Hp.
    assert (∀ e, mapSLO y s d = inr e →
                 LoadSpec y data = (None, Some (MapToModel e))) as Hstop.
    { intros e He. rewrite (LoadSpec_past_gates _ _ _ Hg).
      unfold mapSpecToModel. rewrite Hs.
      by rewrite (mapLoop_err y s pre d post [] e Hpre He). }
    split.
    + intros Hnone. apply Hstop, mapSLO_fails. exists p. split; [done|].
      by rewrite Hnone.
    + intros plugin q cause Hreg Hf. apply Hstop, mapSLO_fails.
      exists p. split; [done|]. rewrite Hreg. exists q, cause.
      by rewrite pluginMeta_eq.
Qed.

(** C7. For every SLO produced by a successful [LoadSpec], the ID is the
    service name, a hyphen and the SLO name, verbatim. *)
Theorem C7_identity y data s g i d slo :
  loads y data s g →
  prometheusv1.Spec.SLOs s !! i = Some d →
  SLOGroup.SLOs g !! i = Some slo →
  SLO.ID slo = prometheusv1.Spec.Service s +:+ "-" +:+ prometheusv1.SLO.Name d ∧
  SLO.ID slo = SLO.Service slo +:+ "-" +:+ SLO.Name slo.
Proof.
  intros Hl Hd Hslo.
  pose proof (loads_lookup _ _ _ _ _ _ _ Hl Hd Hslo) as Hturn.
  apply mapSLO_fields in Hturn as (Hid & Hname & _ & Hsvc & _).
  by rewrite Hid, Hname, Hsvc.
Qed.

(** C8. For every input accepted by [LoadSpec], the produced group has
    exactly one SLO per declaration: as many SLOs as declarations, the SLO
    at each position being the one built from the declaration at that
    position, so the names come out in the order they went in. *)
Theorem C8_one_slo_per_declaration_in_order y data s g :
  loads y data s g →
  length (SLOGroup.SLOs g) = length (prometheusv1.Spec.SLOs s) ∧
  Forall2 (λ d slo, mapSLO y s d = inl slo)
          (prometheusv1.Spec.SLOs s) (SLOGroup.SLOs g) ∧
  SLO.Name <$> SLOGroup.SLOs g = prometheusv1.SLO.Name <$> prometheusv1.Spec.SLOs s.
Proof.
  intros Hl. apply loads_inv in Hl as [_ HF].
  split; [symmetry; by eapply Forall2_length|]. split; [done|].
  induction HF as [|d slo ds slos Hturn _ IH]; [done|].
  rewrite !fmap_cons, IH. f_equal. by apply mapSLO_fields in Hturn as (_ & -> & _).
Qed.

(** C9. A declaration that sets none of [events], [raw] and [plugin]
    raises no error: an input that passes the gates and whose other
    declarations map is accepted, and the SLO of every such declaration
    has both [Events] and [Raw] unset. *)
Theorem C9_no_variant_gives_empty_indicator y data s :
  gates_pass data s →
  Forall (λ d, variants_set d = 0 ∨ ∃ slo, mapSLO y s d = inl slo)
         (prometheusv1.Spec.SLOs s) →
  ∃ g, loads y data s g ∧
       ∀ i d, prometheusv1.Spec.SLOs s !! i = Some d →
              variants_set d = 0 →
              ∃ slo, SLOGroup.SLOs g !! i = Some slo ∧
                     SLI.Events (SLO.SLI slo) = None ∧
                     SLI.Raw (SLO.SLI slo) = None.
Proof.
  intros Hg Hall.
  assert (∀ d, variants_set d = 0 →
               prometheusv1.SLI.Events (prometheusv1.SLO.SLI d) = None ∧
               prometheusv1.SLI.Raw (prometheusv1.SLO.SLI d) = None ∧
               prometheusv1.SLI.Plugin (prometheusv1.SLO.SLI d) = None) as Hnone.
  { intros d. unfold variants_set.
    by destruct (prometheusv1.SLI.Events _), (prometheusv1.SLI.Raw _),
                (prometheusv1.SLI.Plugin _). }
  assert (∃ out, Forall2 (λ d slo, mapSLO y s d = inl slo)
                         (prometheusv1.Spec.SLOs s) out) as [out HF].
  { induction Hall as [|d ds Hd _ [out IH]]; [by exists []|].
    assert (∃ slo, mapSLO y s d = inl slo) as [slo Hslo].
    { destruct Hd as [H0|Hok]; [|done].
      apply mapSLO_no_plugin. by apply Hnone. }
    exists (slo :: out). by constructor. }
  exists {| SLOGroup.SLOs := out |}. split; [by apply loads_intro|].
  intros i d Hd H0. simpl.
  destruct (Forall2_lookup_l _ _ _ _ _ HF Hd) as (slo & Hslo & Hturn).
  exists slo. split; [done|].
  apply mapSLO_sli in Hturn as [Hev Hraw].
  destruct (Hnone d H0) as (He & Hr & Hp).
  rewrite Hp, Hr in Hraw. rewrite He in Hev. done.
Qed.

(** *** Further properties: outcomes, errors and the registry *)

(** Every way the loop can end in an error: some turn fails, and every turn
    before it went through. *)
Lemma mapLoop_err_inv y spec rest models r e :
  mapLoop y spec rest models = (r, Some e) →
  r = None ∧
  ∃ pre d post,
    rest = pre ++ d :: post ∧
    Forall (λ d', ∃ slo, mapSLO y spec d' = inl slo) pre ∧
    mapSLO y spec d = inr e.
Proof.
  revert models. induction rest as [|d rest IH]; intros models; simpl; [done|].
  destruct (mapSLO y spec d) as [slo|e'] eqn:Hd.
  - intros H. apply IH in H as (-> & pre & d' & post & -> & Hpre & Hd').
    split; [done|]. exists (d :: pre), d', post.
    split; [done|]. split; [|done]. constructor; eauto.
  - intros [= <- <-]. split; [done|]. exists [], d, rest. by repeat split.
Qed.

(** A turn goes through exactly when its plugin branch does. *)
Lemma mapSLO_ok_iff y spec d :
  (∃ slo, mapSLO y spec d = inl slo) ↔ plugin_ok y spec d.
Proof.
  unfold plugin_ok.
  destruct (mapSLO y spec d) as [slo|e] eqn:Hturn.
  - split; [intros _|eauto].
    apply mapSLO_sli in Hturn as [_ Hraw].
    destruct (prometheusv1.SLI.Plugin (prometheusv1.SLO.SLI d)) as [p|]; [|done].
    destruct Hraw as (plugin & q & ? & ? & _). eauto.
  - split; [by intros [? [=]]|].
    apply mapSLO_fails in Hturn as (p & -> & Hcase).
    intros (plugin & q & Hreg & Hf). rewrite Hreg in Hcase.
    destruct Hcase as (q' & c & Hf' & _). congruence.
Qed.

(** A turn reads the document head only for the service and the labels. *)
Lemma mapSLO_head y s1 s2 d :
  prometheusv1.Spec.Service s1 = prometheusv1.Spec.Service s2 →
  prometheusv1.Spec.Labels s1 = prometheusv1.Spec.Labels s2 →
  mapSLO y s1 d = mapSLO y s2 d.
Proof.
  destruct s1, s2; simpl; intros -> ->. reflexivity.
Qed.

(** A turn reads the registry only at the identifier it names. *)
Lemma mapSLO_registry y1 y2 spec d :
  (∀ p, prometheusv1.SLI.Plugin (prometheusv1.SLO.SLI d) = Some p →
        YAMLSpecLoader.plugins y1 !! prometheusv1.SLIPlugin.ID p =
        YAMLSpecLoader.plugins y2 !! prometheusv1.SLIPlugin.ID p) →
  mapSLO y1 spec d = mapSLO y2 spec d.
Proof.
  intros Hsame. unfold mapSLO, setPlugin.
  destruct (prometheusv1.SLI.Plugin (prometheusv1.SLO.SLI d)) as [p|]; [|done].
  by rewrite (Hsame p eq_refl).
Qed.

Lemma mapLoop_registry y1 y2 spec rest models :
  (∀ d p, d ∈ rest →
          prometheusv1.SLI.Plugin (prometheusv1.SLO.SLI d) = Some p →
          YAMLSpecLoader.plugins y1 !! prometheusv1.SLIPlugin.ID p =
          YAMLSpecLoader.plugins y2 !! prometheusv1.SLIPlugin.ID p) →
  mapLoop y1 spec rest models = mapLoop y2 spec rest models.
Proof.
  revert models. induction rest as [|d rest IH]; intros models Hsame; simpl; [done|].
  rewrite (mapSLO_registry y1 y2 spec d).
  - destruct (mapSLO y2 spec d); [|done]. apply IH.
    intros d' p Hin. apply Hsame. by right.
  - intros p. apply Hsame. by left.
Qed.

Lemma append_inj_l (a b c : string) : a +:+ b = a +:+ c → b = c.
Proof. induction a as [|ch a IH]; simpl; [done|]. intros [= H]. by apply IH. Qed.

(** Past the gates, with every plugin branch going through, the load is
    accepted and each declaration gives the SLO at its position. *)
Lemma accepted_positionwise y data s :
  gates_pass data s →
  Forall (plugin_ok y s) (prometheusv1.Spec.SLOs s) →
  ∃ g, loads y data s g ∧
       Forall2 (λ d slo, mapSLO y s d = inl slo)
               (prometheusv1.Spec.SLOs s) (SLOGroup.SLOs g).
Proof.
  intros Hg Hall.
  assert (∃ out, Forall2 (λ d slo, mapSLO y s d = inl slo)
                         (prometheusv1.Spec.SLOs s) out) as [out HF].
  { clear Hg. induction Hall as [|d ds Hok _ [out IH]]; [by exists []|].
    apply mapSLO_ok_iff in Hok as [slo Hslo].
    exists (slo :: out). by constructor. }
  exists {| SLOGroup.SLOs := out |}. split; [by apply loads_intro|done].
Qed.

(** C10. [LoadSpec] does not validate the service field: an input with an
    absent or empty [service] that is otherwise valid (it passes the four
    gates, and each plugin a declaration names is registered and returns no
    error on the arguments of that declaration) is accepted; the group has
    one SLO per declaration, and every resulting SLO has the empty string as
    [Service] and a hyphen followed by the SLO name as [ID]. *)
Theorem C10_empty_service_is_accepted y data s :
  gates_pass data s →
  prometheusv1.Spec.Service s = "" →
  Forall (λ d, ∀ p,
            prometheusv1.SLI.Plugin (prometheusv1.SLO.SLI d) = Some p →
            ∃ plugin q,
              YAMLSpecLoader.plugins y !! prometheusv1.SLIPlugin.ID p = Some plugin ∧
              SLIPlugin.Func plugin
                {[ "service" := "";
                   "slo" := prometheusv1.SLO.Name d;
                   "objective" := fmt.Sprintf_f (prometheusv1.SLO.Objective d) ]}
                (prometheusv1.Spec.Labels s) (prometheusv1.SLIPlugin.Options p)
              = (q, None))
         (prometheusv1.Spec.SLOs s) →
  ∃ g, LoadSpec y data = (Some g, None) ∧
       length (SLOGroup.SLOs g) = length (prometheusv1.Spec.SLOs s) ∧
       SLOGroup.SLOs g ≠ [] ∧
       (∀ i d, prometheusv1.Spec.SLOs s !! i = Some d →
               ∃ slo, SLOGroup.SLOs g !! i = Some slo ∧
                      SLO.Name slo = prometheusv1.SLO.Name d ∧
                      SLO.Service slo = "" ∧
                      SLO.ID slo = "-" +:+ prometheusv1.SLO.Name d) ∧
       Forall (λ slo, SLO.Service slo = "" ∧ SLO.ID slo = "-" +:+ SLO.Name slo)
              (SLOGroup.SLOs g).
Proof.
  intros Hg Hsvc Hall.
  destruct (accepted_positionwise y data s Hg) as (g & [_ Hload] & HF).
  { eapply Forall_impl; [exact Hall|]. intros d Hd. simpl in Hd. unfold plugin_ok.
    destruct (prometheusv1.SLI.Plugin (prometheusv1.SLO.SLI d)) as [p|]; [|done].
    destruct (Hd p eq_refl) as (plugin & q & Hreg & Hf).
    exists plugin, q. by rewrite pluginMeta_eq, Hsvc. }
  assert (∀ d slo, mapSLO y s d = inl slo →
                   SLO.Name slo = prometheusv1.SLO.Name d ∧
                   SLO.Service slo = "" ∧
                   SLO.ID slo = "-" +:+ prometheusv1.SLO.Name d) as Hturn.
  { intros d slo (Hid & Hname & _ & Hs & _)%mapSLO_fields.
    by rewrite Hid, Hname, Hs, Hsvc. }
  exists g. split; [done|].
  split; [symmetry; by eapply Forall2_length|].
  split.
  { destruct Hg as (_ & _ & _ & Hne). intros Hnil. rewrite Hnil in HF.
    apply Forall2_nil_inv_r in HF. done. }
  split.
  - intros i d Hd.
    destruct (Forall2_lookup_l _ _ _ _ _ HF Hd) as (slo & Hslo & Hm).
    exists slo. split; [done|]. by apply Hturn.
  - clear Hall Hg. induction HF as [|d slo ds slos Hm _ IH]; constructor; [|done].
    destruct (Hturn d slo Hm) as (Hn & Hs & Hid). by rewrite Hn.
Qed.

(** [LoadSpec] hands back either a group with at least one SLO and no
    error, or an error and no group: never both, never neither, never an
    empty group. *)
Theorem LoadSpec_group_or_error y data :
  (∃ g, LoadSpec y data = (Some g, None) ∧ SLOGroup.SLOs g ≠ []) ∨
  (∃ e, LoadSpec y data = (None, Some e)).
Proof.
  unfold prometheus.LoadSpec.
  destruct (length data =? 0)%nat; [right; eauto|].
  destruct (yaml_Unmarshal data prometheusv1.Spec.zero) as [s [e|]]; [right; eauto|].
  case_bool_decide; [right; eauto|].
  destruct (length (prometheusv1.Spec.SLOs s) =? 0)%nat eqn:Hlen; [right; eauto|].
  destruct (mapLoop_shape y s (prometheusv1.Spec.SLOs s) []) as [[g Hg]|[e He]];
    unfold mapSpecToModel; rewrite ?Hg, ?He; [left|right; eauto].
  exists g. split; [done|].
  apply mapLoop_ok in Hg as (out & HF & Hout). simpl in Hout. rewrite Hout.
  intros ->. apply Forall2_nil_inv_r in HF. by rewrite HF in Hlen.
Qed.

(** [LoadSpec] accepts an input exactly when the input is not empty, the
    decoder accepts it, the version is the supported one, there is at least
    one declaration, and every declaration that names a plugin names a
    registered one whose call returns no error. *)
Theorem LoadSpec_accepts_iff y data :
  (∃ g, LoadSpec y data = (Some g, None)) ↔
  ∃ s, data ≠ [] ∧
       yaml_Unmarshal data prometheusv1.Spec.zero = (s, None) ∧
       prometheusv1.Spec.Version s = "prometheus/v1" ∧
       prometheusv1.Spec.SLOs s ≠ [] ∧
       Forall (plugin_ok y s) (prometheusv1.Spec.SLOs s).
Proof.
  split.
  - intros [g Hg]. apply LoadSpec_ok_inv in Hg as (s & Hgates & Hm).
    destruct Hgates as (Hd & Hy & Hv & Hs). exists s. repeat (split; [done|]).
    apply mapLoop_ok in Hm as (out & HF & _). clear Hs.
    induction HF as [|d slo ds slos Hturn _ IH]; constructor; [|done].
    apply mapSLO_ok_iff. eauto.
  - intros (s & Hd & Hy & Hv & Hs & Hall).
    assert (∃ out, Forall2 (λ d slo, mapSLO y s d = inl slo)
                           (prometheusv1.Spec.SLOs s) out) as [out HF].
    { clear Hs. induction Hall as [|d ds Hok _ [out IH]]; [by exists []|].
      apply mapSLO_ok_iff in Hok as [slo Hslo].
      exists (slo :: out). by constructor. }
    exists {| SLOGroup.SLOs := out |}.
    by apply (loads_intro y data s out).
Qed.

(** No error of [LoadSpec] is spurious: each one names the gate that
    failed, or a declaration whose plugin is not registered or whose plugin
    call returned the error that is wrapped. *)
Theorem LoadSpec_error_has_a_cause y data r e :
  LoadSpec y data = (r, Some e) →
  (e = EmptySpec ∧ data = []) ∨
  (∃ s cause, e = MalformedSpec cause ∧
              yaml_Unmarshal data prometheusv1.Spec.zero = (s, Some cause)) ∨
  (∃ s, e = UnsupportedVersion ∧
        yaml_Unmarshal data prometheusv1.Spec.zero = (s, None) ∧
        prometheusv1.Spec.Version s ≠ "prometheus/v1") ∨
  (∃ s, e = NoSLOs ∧
        yaml_Unmarshal data prometheusv1.Spec.zero = (s, None) ∧
        prometheusv1.Spec.SLOs s = []) ∨
  (∃ s d p,
     yaml_Unmarshal data prometheusv1.Spec.zero = (s, None) ∧
     d ∈ prometheusv1.Spec.SLOs s ∧
     prometheusv1.SLI.Plugin (prometheusv1.SLO.SLI d) = Some p ∧
     ((e = MapToModel (UnknownPlugin (prometheusv1.SLIPlugin.ID p)) ∧
       YAMLSpecLoader.plugins y !! prometheusv1.SLIPlugin.ID p = None) ∨
      (∃ plugin q cause,
         e = MapToModel (PluginExecutionError (prometheusv1.SLIPlugin.ID p) cause) ∧
         YAMLSpecLoader.plugins y !! prometheusv1.SLIPlugin.ID p = Some plugin ∧
         SLIPlugin.Func plugin (pluginMeta s d) (prometheusv1.Spec.Labels s)
                        (prometheusv1.SLIPlugin.Options p) = (q, Some cause)))).
Proof.
  unfold prometheus.LoadSpec.
  destruct (length data =? 0)%nat eqn:Hlen.
  { intros [= <- <-]. left. split; [done|]. by apply length_zero_iff_nil. }
  destruct (yaml_Unmarshal data prometheusv1.Spec.zero) as [s [c|]] eqn:Hy.
  { intros [= <- <-]. right; left. eauto. }
  case_bool_decide as Hv.
  { intros [= <- <-]. right; right; left. eauto. }
  destruct (length (prometheusv1.Spec.SLOs s) =? 0)%nat eqn:Hlen'.
  { intros [= <- <-]. right; right; right; left. exists s.
    split; [done|]. split; [done|]. by apply length_zero_iff_nil. }
  destruct (mapSpecToModel y s) as [m [c|]] eqn:Hm; [|by intros [=]].
  intros [= <- <-]. right; right; right; right.
  apply mapLoop_err_inv in Hm as (_ & pre & d & post & Hs & _ & Hd).
  apply mapSLO_fails in Hd as (p & Hp & Hcase).
  exists s, d, p. split; [done|].
  split; [rewrite Hs; apply elem_of_app; right; by left|]. split; [done|].
  destruct (YAMLSpecLoader.plugins y !! prometheusv1.SLIPlugin.ID p) as [plugin|].
  - right. destruct Hcase as (q & cause & Hf & ->). by exists plugin, q, cause.
  - left. by subst.
Qed.

(** A document without plugin declarations that passes the gates is
    accepted by every loader, with the same group whatever the registry
    holds. *)
Theorem LoadSpec_without_plugins y data s :
  gates_pass data s →
  Forall (λ d, prometheusv1.SLI.Plugin (prometheusv1.SLO.SLI d) = None)
         (prometheusv1.Spec.SLOs s) →
  ∃ g, LoadSpec y data = (Some g, None) ∧
       ∀ y', LoadSpec y' data = (Some g, None).
Proof.
  intros Hg Hnone.
  assert (∃ out, ∀ y', Forall2 (λ d slo, mapSLO y' s d = inl slo)
                               (prometheusv1.Spec.SLOs s) out) as [out HF].
  { clear Hg. induction Hnone as [|d ds Hd _ [out IH]]; [by exists []|].
    destruct (mapSLO_no_plugin y s d Hd) as [slo Hslo].
    exists (slo :: out). intros y'. constructor; [|done].
    rewrite (mapSLO_registry y' y s d); [done|]. intros p. by rewrite Hd. }
  exists {| SLOGroup.SLOs := out |}.
  split; [|intros y']; by apply (loads_intro _ data s out).
Qed.

(** [LoadSpec] reads the registry only at the identifiers the declarations
    name: two loaders that hold the same plugins there return the same
    outcome. *)
Theorem LoadSpec_reads_named_plugins_only y1 y2 data :
  (∀ s, yaml_Unmarshal data prometheusv1.Spec.zero = (s, None) →
        same_plugins_for s y1 y2) →
  LoadSpec y1 data = LoadSpec y2 data.
Proof.
  intros Hsame. unfold prometheus.LoadSpec.
  destruct (length data =? 0)%nat; [done|].
  destruct (yaml_Unmarshal data prometheusv1.Spec.zero) as [s [e|]] eqn:Hy; [done|].
  case_bool_decide; [done|].
  destruct (length (prometheusv1.Spec.SLOs s) =? 0)%nat; [done|].
  unfold mapSpecToModel.
  by rewrite (mapLoop_registry y1 y2 s (prometheusv1.Spec.SLOs s) [] (Hsame s eq_refl)).
Qed.

(** With an empty registry the first declaration that names a plugin ends
    the load with [UnknownPlugin] for its identifier, whatever follows. *)
Theorem LoadSpec_empty_registry data s pre d post p :
  gates_pass data s →
  prometheusv1.Spec.SLOs s = pre ++ d :: post →
  Forall (λ d', prometheusv1.SLI.Plugin (prometheusv1.SLO.SLI d') = None) pre →
  prometheusv1.SLI.Plugin (prometheusv1.SLO.SLI d) = Some p →
  LoadSpec (NewYAMLSpecLoader ∅) data =
    (None, Some (MapToModel (UnknownPlugin (prometheusv1.SLIPlugin.ID p)))).
Proof.
  intros Hg Hs Hpre Hp. rewrite (LoadSpec_past_gates _ _ _ Hg).
  unfold mapSpecToModel. rewrite Hs.
  rewrite (mapLoop_err _ s pre d post []
             (UnknownPlugin (prometheusv1.SLIPlugin.ID p))); [done| |].
  - eapply Forall_impl; [exact Hpre|]. intros d' Hd'. by apply mapSLO_no_plugin.
  - apply mapSLO_fails. exists p. split; [done|]. simpl. by rewrite lookup_empty.
Qed.

(** Every SLO of an accepted input carries the service of the document and
    the one fixed window of thirty days, 2592000000000000 nanoseconds,
    which fits the 64-bit duration. *)
Theorem loaded_window_and_service y data s g :
  loads y data s g →
  Forall (λ slo, SLO.Service slo = prometheusv1.Spec.Service s ∧
                 SLO.TimeWindow slo = 2592000000000000%Z ∧
                 (0 < SLO.TimeWindow slo < 2 ^ 63)%Z)
         (SLOGroup.SLOs g).
Proof.
  intros Hl. apply loads_inv in Hl as [_ HF].
  induction HF as [|d slo ds slos Hturn _ IH]; constructor; [|done].
  apply mapSLO_fields in Hturn as (_ & _ & _ & Hsvc & Hwin & _).
  rewrite Hsvc, Hwin. done.
Qed.

(** Name, description and objective of a declaration are not checked and
    reach its SLO unchanged: an input that passes the gates and whose plugin
    branches go through is accepted whatever these three fields hold, and the
    SLO at each position has them as declared. *)
Theorem loaded_fields_verbatim y data s :
  gates_pass data s →
  Forall (plugin_ok y s) (prometheusv1.Spec.SLOs s) →
  ∃ g, LoadSpec y data = (Some g, None) ∧
       ∀ i d, prometheusv1.Spec.SLOs s !! i = Some d →
              ∃ slo, SLOGroup.SLOs g !! i = Some slo ∧
                     SLO.Name slo = prometheusv1.SLO.Name d ∧
                     SLO.Description slo = prometheusv1.SLO.Description d ∧
                     SLO.Objective slo = prometheusv1.SLO.Objective d.
Proof.
  intros Hg Hall.
  destruct (accepted_positionwise y data s Hg Hall) as (g & [_ Hload] & HF).
  exists g. split; [done|]. intros i d Hd.
  destruct (Forall2_lookup_l _ _ _ _ _ HF Hd) as (slo & Hslo & Hturn).
  exists slo. split; [done|].
  by apply mapSLO_fields in Hturn as (_ & ? & ? & _ & _ & ? & _).
Qed.

(** The two alerts are resolved one by one: the [Disable] flag of each is
    the declared flag; a disabled alert is the bare [AlertMeta{Disable:
    true}], so what the declaration says about its name, labels and
    annotations is dropped; an alert that is not disabled carries the shared
    alerting name. *)
Theorem loaded_alerts y data s g i d slo :
  loads y data s g →
  prometheusv1.Spec.SLOs s !! i = Some d →
  SLOGroup.SLOs g !! i = Some slo →
  let alerting := prometheusv1.SLO.Alerting d in
  let page := prometheusv1.Alerting.PageAlert alerting in
  let ticket := prometheusv1.Alerting.TicketAlert alerting in
  AlertMeta.Disable (SLO.PageAlertMeta slo) = prometheusv1.Alert.Disable page ∧
  AlertMeta.Disable (SLO.TicketAlertMeta slo) = prometheusv1.Alert.Disable ticket ∧
  (prometheusv1.Alert.Disable page = true →
   SLO.PageAlertMeta slo = AlertMeta.disabled) ∧
  (prometheusv1.Alert.Disable ticket = true →
   SLO.TicketAlertMeta slo = AlertMeta.disabled) ∧
  (prometheusv1.Alert.Disable page = false →
   AlertMeta.Name (SLO.PageAlertMeta slo) = prometheusv1.Alerting.Name alerting) ∧
  (prometheusv1.Alert.Disable ticket = false →
   AlertMeta.Name (SLO.TicketAlertMeta slo) = prometheusv1.Alerting.Name alerting).
Proof.
  intros Hl Hd Hslo alerting page ticket.
  pose proof (loads_lookup _ _ _ _ _ _ _ Hl Hd Hslo) as Hturn.
  apply mapSLO_alerts in Hturn as [Hp Ht]. simpl in Hp, Ht.
  fold alerting in Hp, Ht. fold page in Hp. fold ticket in Ht.
  rewrite Hp, Ht.
  destruct (prometheusv1.Alert.Disable page), (prometheusv1.Alert.Disable ticket);
    simpl; repeat split; done.
Qed.

(** A repeated name is not rejected: an input that passes the gates and
    whose plugin branches go through is accepted whether or not two
    declarations share a name, and the SLOs at two positions have the same ID
    exactly when the declarations there have the same name. *)
Theorem loaded_ids_follow_names y data s i j d1 d2 :
  gates_pass data s →
  Forall (plugin_ok y s) (prometheusv1.Spec.SLOs s) →
  prometheusv1.Spec.SLOs s !! i = Some d1 →
  prometheusv1.Spec.SLOs s !! j = Some d2 →
  ∃ g slo1 slo2,
    LoadSpec y data = (Some g, None) ∧
    SLOGroup.SLOs g !! i = Some slo1 ∧
    SLOGroup.SLOs g !! j = Some slo2 ∧
    (SLO.ID slo1 = SLO.ID slo2 ↔ prometheusv1.SLO.Name d1 = prometheusv1.SLO.Name d2).
Proof.
  intros Hg Hall Hd1 Hd2.
  destruct (accepted_positionwise y data s Hg Hall) as (g & [_ Hload] & HF).
  destruct (Forall2_lookup_l _ _ _ _ _ HF Hd1) as (slo1 & Hs1 & H1).
  destruct (Forall2_lookup_l _ _ _ _ _ HF Hd2) as (slo2 & Hs2 & H2).
  exists g, slo1, slo2. repeat (split; [done|]).
  apply mapSLO_fields in H1 as (-> & _). apply mapSLO_fields in H2 as (-> & _).
  unfold fmt.Sprintf_s_dash_s. split; [|by intros ->].
  intros H. apply append_inj_l in H. by apply (append_inj_l "-") in H.
Qed.

(** [mapSpecToModel] maps a list of declarations piece by piece: a list in
    two parts succeeds exactly when both parts do, the SLOs of the first
    part followed by those of the second, and the error of the first part is
    the error of the whole. *)
Theorem mapSpecToModel_app y s l1 l2 :
  (∀ g,
     mapSpecToModel y (with_SLOs s (l1 ++ l2)) = (Some g, None) ↔
     ∃ g1 g2,
       mapSpecToModel y (with_SLOs s l1) = (Some g1, None) ∧
       mapSpecToModel y (with_SLOs s l2) = (Some g2, None) ∧
       SLOGroup.SLOs g = SLOGroup.SLOs g1 ++ SLOGroup.SLOs g2) ∧
  (∀ e,
     mapSpecToModel y (with_SLOs s l1) = (None, Some e) →
     mapSpecToModel y (with_SLOs s (l1 ++ l2)) = (None, Some e)).
Proof.
  assert (∀ l rest models,
            mapLoop y (with_SLOs s l) rest models = mapLoop y s rest models) as Hhead.
  { intros l rest. induction rest as [|d rest IH]; intros models; simpl; [done|].
    rewrite (mapSLO_head y (with_SLOs s l) s d) by done.
    destruct (mapSLO y s d); [apply IH|done]. }
  unfold mapSpecToModel. simpl. rewrite !Hhead. split.
  - intros g. rewrite mapLoop_ok. setoid_rewrite mapLoop_ok. simpl. split.
    + intros (out & HF & Hout).
      apply Forall2_app_inv_l in HF as (o1 & o2 & H1 & H2 & ->).
      exists {| SLOGroup.SLOs := o1 |}, {| SLOGroup.SLOs := o2 |}. eauto 10.
    + intros (g1 & g2 & (o1 & H1 & E1) & (o2 & H2 & E2) & Hg).
      exists (o1 ++ o2). split; [by apply Forall2_app|]. by rewrite Hg, E1, E2.
  - intros e He. apply mapLoop_err_inv in He as (_ & pre & d & post & -> & Hpre & Hd).
    rewrite <- app_assoc. simpl. by apply mapLoop_err.
Qed.

End Properties.

(** ** The test table of [spec_test.go], run on the embedding *)

Section TestYAMLoadSpec.

Import fixtures.

Example test_empty_spec_fails :
  LoadSpec Unmarshal no_plugins (bytes "") = (None, Some EmptySpec).
Proof. reflexivity. Qed.

Example test_wrong_yaml_fails :
  LoadSpec Unmarshal no_plugins (bytes doc_wrong)
  = (None, Some (MalformedSpec "yaml: did not find expected key")).
Proof. reflexivity. Qed.

Example test_no_version_fails :
  LoadSpec Unmarshal no_plugins (bytes doc_no_version) = (None, Some UnsupportedVersion).
Proof. reflexivity. Qed.

Example test_invalid_version_fails :
  LoadSpec Unmarshal no_plugins (bytes doc_v2) = (None, Some UnsupportedVersion).
Proof. reflexivity. Qed.

Example test_no_slos_fails :
  LoadSpec Unmarshal no_plugins (bytes doc_no_slos) = (None, Some NoSLOs).
Proof. reflexivity. Qed.

Example test_unknown_plugin_fails :
  LoadSpec Unmarshal no_plugins (bytes doc_unknown_plugin)
  = (None, Some (MapToModel (UnknownPlugin "unknown_plugin"))).
Proof. reflexivity. Qed.

Example test_failing_plugin_fails :
  LoadSpec Unmarshal with_failing_plugin (bytes doc_plugin)
  = (None, Some (MapToModel (PluginExecutionError "test_plugin" "something"))).
Proof. reflexivity. Qed.

Example test_plugin_is_used :
  LoadSpec Unmarshal with_test_plugin (bytes doc_plugin) = (Some plugin_model, None).
Proof. vm_compute. reflexivity. Qed.

Example test_correct_spec :
  LoadSpec Unmarshal no_plugins (bytes doc_correct) = (Some correct_model, None).
Proof. vm_compute. reflexivity. Qed.

Example run_no_alerting :
  LoadSpec Unmarshal no_plugins (bytes doc_no_alerting) = (Some no_alerting_model, None).
Proof. vm_compute. reflexivity. Qed.

Example run_events_and_raw :
  LoadSpec Unmarshal no_plugins (bytes doc_events_and_raw)
  = (Some events_and_raw_model, None).
Proof. vm_compute. reflexivity. Qed.

Example run_no_service :
  LoadSpec Unmarshal no_plugins (bytes doc_no_service) = (Some no_service_model, None).
Proof. vm_compute. reflexivity. Qed.

(** The verb on a few values: a tie goes to the even digit, a negative
    number that rounds to nothing keeps its sign. *)
Example Sprintf_f_99_99 : fmt.Sprintf_f f99_99 = "99.990000".
Proof. vm_compute. reflexivity. Qed.

Example Sprintf_f_tie : fmt.Sprintf_f (S754_finite false 4503599627370496 (-59)) = "0.007812".
Proof. vm_compute. reflexivity. Qed.

Example Sprintf_f_small_negative :
  fmt.Sprintf_f (S754_finite true 7555786372591432 (-76)) = "-0.000000".
Proof. vm_compute. reflexivity. Qed.

Example Sprintf_f_integer : fmt.Sprintf_f (S754_finite false 3 2) = "12.000000".
Proof. vm_compute. reflexivity. Qed.

End TestYAMLoadSpec.

(** ** The properties at the documents of the test table *)

Section Instances.

Import fixtures.

Lemma loads_plugin : loads Unmarshal with_test_plugin (bytes doc_plugin) plugin_spec plugin_model.
Proof. split; vm_compute; reflexivity. Qed.

Lemma loads_correct : loads Unmarshal no_plugins (bytes doc_correct) correct_spec correct_model.
Proof. split; vm_compute; reflexivity. Qed.

Lemma loads_no_alerting :
  loads Unmarshal no_plugins (bytes doc_no_alerting) no_alerting_spec no_alerting_model.
Proof. split; vm_compute; reflexivity. Qed.

Lemma loads_events_and_raw :
  loads Unmarshal no_plugins (bytes doc_events_and_raw) events_and_raw_spec
        events_and_raw_model.
Proof. split; vm_compute; reflexivity. Qed.

Lemma gates_pass_no_service :
  gates_pass Unmarshal (bytes doc_no_service) no_service_spec.
Proof.
  split; [discriminate|]. split; [vm_compute; reflexivity|].
  split; [reflexivity | discriminate].
Qed.

Lemma gates_pass_unknown_plugin :
  gates_pass Unmarshal (bytes doc_unknown_plugin) unknown_plugin_spec.
Proof.
  split; [discriminate|]. split; [vm_compute; reflexivity|].
  split; [reflexivity | discriminate].
Qed.

Lemma gates_pass_plugin : gates_pass Unmarshal (bytes doc_plugin) plugin_spec.
Proof.
  split; [discriminate|]. split; [vm_compute; reflexivity|].
  split; [reflexivity | discriminate].
Qed.

(** C1 as stated fails: the document has no [alerting] key, and both
    alerts of its SLO come out enabled. *)
Lemma C1_counterexample :
  loads Unmarshal no_plugins (bytes doc_no_alerting) no_alerting_spec no_alerting_model ∧
  prometheusv1.Spec.SLOs no_alerting_spec !! 0 = Some events_slo_no_alerting ∧
  SLOGroup.SLOs no_alerting_model !! 0 = Some no_alerting_slo_model ∧
  prometheusv1.SLO.Alerting events_slo_no_alerting = prometheusv1.Alerting.zero ∧
  AlertMeta.Disable (SLO.PageAlertMeta no_alerting_slo_model) = false ∧
  AlertMeta.Disable (SLO.TicketAlertMeta no_alerting_slo_model) = false.
Proof. split; [apply loads_no_alerting|]. repeat split. Qed.

Lemma C1_witness :
  SLO.PageAlertMeta no_alerting_slo_model = enabled_bare ∧
  SLO.TicketAlertMeta no_alerting_slo_model = enabled_bare.
Proof.
  apply (C1_absent_alerting_enables_both_alerts Unmarshal no_plugins
           (bytes doc_no_alerting) no_alerting_spec no_alerting_model 0
           events_slo_no_alerting no_alerting_slo_model).
  - exact loads_no_alerting.
  - reflexivity.
  - reflexivity.
  - reflexivity.
Defined.

(** C2 as stated fails: the declaration sets [events] and [raw], and the
    second of the two takes effect as well. *)
Lemma C2_counterexample :
  loads Unmarshal no_plugins (bytes doc_events_and_raw) events_and_raw_spec
        events_and_raw_model ∧
  prometheusv1.Spec.SLOs events_and_raw_spec !! 0 = Some events_and_raw_slo ∧
  SLOGroup.SLOs events_and_raw_model !! 0 = Some events_and_raw_slo_model ∧
  is_Some (prometheusv1.SLI.Events (prometheusv1.SLO.SLI events_and_raw_slo)) ∧
  is_Some (prometheusv1.SLI.Raw (prometheusv1.SLO.SLI events_and_raw_slo)) ∧
  SLI.Raw (SLO.SLI events_and_raw_slo_model)
  = Some {| SLIRaw.ErrorRatioQuery := "test_expr_ratio_2" |}.
Proof.
  split; [apply loads_events_and_raw|].
  repeat split; simpl; eauto.
Qed.

Lemma C2_witness :
  SLI.Events (SLO.SLI events_and_raw_slo_model)
  = Some {| SLIEvents.ErrorQuery := "test_expr_error_1";
            SLIEvents.TotalQuery := "test_expr_total_1" |} ∧
  SLI.Raw (SLO.SLI events_and_raw_slo_model)
  = Some {| SLIRaw.ErrorRatioQuery := "test_expr_ratio_2" |}.
Proof.
  exact (C2_sli_branches_run_independently Unmarshal no_plugins
           (bytes doc_events_and_raw) events_and_raw_spec events_and_raw_model 0
           events_and_raw_slo events_and_raw_slo_model
           loads_events_and_raw eq_refl eq_refl).
Defined.

Lemma C3_witness :
  variants_set slo2 = 1 ∧
  ((is_Some (SLI.Events (SLO.SLI slo2_model)) ∧ SLI.Raw (SLO.SLI slo2_model) = None) ∨
   (SLI.Events (SLO.SLI slo2_model) = None ∧ is_Some (SLI.Raw (SLO.SLI slo2_model)))).
Proof.
  split; [reflexivity|].
  apply (C3_exactly_one_indicator Unmarshal no_plugins (bytes doc_correct)
           correct_spec correct_model 1 slo2 slo2_model).
  - exact loads_correct.
  - reflexivity.
  - reflexivity.
  - reflexivity.
Defined.

Lemma C4_witness :
  ∃ q,
    SLIPlugin.Func test_plugin
      {[ "service" := "test-svc"; "slo" := "slo-test"; "objective" := "99.000000" ]}
      {[ "gk1" := "gv1" ]}
      (<["k1" := "v1"]> {[ "k2" := "true" ]}) = (q, None) ∧
    SLI.Raw (SLO.SLI plugin_slo_model) = Some {| SLIRaw.ErrorRatioQuery := q |}.
Proof.
  destruct (C4_plugin_invocation Unmarshal with_test_plugin (bytes doc_plugin)
              plugin_spec plugin_model 0
              (plugin_slo "slo-test" "test_plugin" (<["k1" := "v1"]> {[ "k2" := "true" ]}))
              plugin_slo_model
              {| prometheusv1.SLIPlugin.ID := "test_plugin";
                 prometheusv1.SLIPlugin.Options := <["k1" := "v1"]> {[ "k2" := "true" ]} |}
              test_plugin loads_plugin eq_refl eq_refl eq_refl eq_refl)
    as (_ & _ & _ & q & Hf & Hq).
  exists q. split; [exact Hf | exact Hq].
Defined.

Lemma C5_witness :
  LoadSpec Unmarshal no_plugins (bytes "") = (None, Some EmptySpec) ∧
  LoadSpec Unmarshal no_plugins (bytes ":")
  = (None, Some (MalformedSpec "yaml: did not find expected key")) ∧
  LoadSpec Unmarshal no_plugins (bytes doc_v2) = (None, Some UnsupportedVersion) ∧
  LoadSpec Unmarshal no_plugins (bytes doc_no_version) = (None, Some UnsupportedVersion) ∧
  LoadSpec Unmarshal no_plugins (bytes doc_no_slos) = (None, Some NoSLOs).
Proof.
  destruct (C5_validation_gates Unmarshal no_plugins) as [Hgates Hcolon].
  split; [|split; [|split; [|split]]].
  - destruct (Hgates (bytes "")) as (H & _). apply H. reflexivity.
  - apply (Hcolon prometheusv1.Spec.zero). reflexivity.
  - destruct (Hgates (bytes doc_v2)) as (_ & _ & H & _).
    apply (H v2_spec); [discriminate | reflexivity | discriminate].
  - destruct (Hgates (bytes doc_no_version)) as (_ & _ & _ & H & _).
    apply (H no_version_spec); [discriminate | reflexivity | reflexivity].
  - destruct (Hgates (bytes doc_no_slos)) as (_ & _ & _ & _ & H & _).
    apply (H no_slos_spec); [discriminate | reflexivity | reflexivity | reflexivity].
Defined.

Lemma C6_witness :
  fst (LoadSpec Unmarshal no_plugins (bytes doc_unknown_plugin)) = None ∧
  LoadSpec Unmarshal no_plugins (bytes doc_unknown_plugin)
  = (None, Some (MapToModel (UnknownPlugin "unknown_plugin"))) ∧
  LoadSpec Unmarshal with_failing_plugin (bytes doc_plugin)
  = (None, Some (MapToModel (PluginExecutionError "test_plugin" "something"))).
Proof.
  split; [|split].
  - destruct (C6_all_or_nothing Unmarshal no_plugins (bytes doc_unknown_plugin))
      as [H _].
    apply (H (MapToModel (UnknownPlugin "unknown_plugin"))). reflexivity.
  - destruct (C6_all_or_nothing Unmarshal no_plugins (bytes doc_unknown_plugin))
      as [_ H].
    destruct (H unknown_plugin_spec [] (plugin_slo "slo" "unknown_plugin" ∅) []
                {| prometheusv1.SLIPlugin.ID := "unknown_plugin";
                   prometheusv1.SLIPlugin.Options := ∅ |}) as [Hunknown _].
    + exact gates_pass_unknown_plugin.
    + reflexivity.
    + constructor.
    + reflexivity.
    + apply Hunknown. reflexivity.
  - destruct (C6_all_or_nothing Unmarshal with_failing_plugin (bytes doc_plugin))
      as [_ H].
    destruct (H plugin_spec []
                (plugin_slo "slo-test" "test_plugin" (<["k1" := "v1"]> {[ "k2" := "true" ]}))
                []
                {| prometheusv1.SLIPlugin.ID := "test_plugin";
                   prometheusv1.SLIPlugin.Options := <["k1" := "v1"]> {[ "k2" := "true" ]} |})
      as [_ Hfails].
    + exact gates_pass_plugin.
    + reflexivity.
    + constructor.
    + reflexivity.
    + apply (Hfails failing_plugin ""); reflexivity.
Defined.

Lemma C7_witness :
  SLO.ID plugin_slo_model = "test-svc-slo-test" ∧
  SLO.ID plugin_slo_model = SLO.Service plugin_slo_model +:+ "-" +:+ SLO.Name plugin_slo_model.
Proof.
  exact (C7_identity Unmarshal with_test_plugin (bytes doc_plugin) plugin_spec
           plugin_model 0 _ plugin_slo_model loads_plugin eq_refl eq_refl).
Defined.

Lemma C8_witness :
  length (SLOGroup.SLOs correct_model) = 2 ∧
  Forall2 (λ d slo, mapSLO no_plugins correct_spec d = inl slo)
          [slo1; slo2] [slo1_model; slo2_model] ∧
  SLO.Name <$> SLOGroup.SLOs correct_model = ["slo1"; "slo2"].
Proof.
  exact (C8_one_slo_per_declaration_in_order Unmarshal no_plugins (bytes doc_correct)
           correct_spec correct_model loads_correct).
Defined.

Lemma C9_witness :
  ∃ g, loads Unmarshal no_plugins (bytes doc_no_service) no_service_spec g ∧
       ∀ i d, prometheusv1.Spec.SLOs no_service_spec !! i = Some d →
              variants_set d = 0 →
              ∃ slo, SLOGroup.SLOs g !! i = Some slo ∧
                     SLI.Events (SLO.SLI slo) = None ∧
                     SLI.Raw (SLO.SLI slo) = None.
Proof.
  apply (C9_no_variant_gives_empty_indicator Unmarshal no_plugins
           (bytes doc_no_service) no_service_spec).
  - exact gates_pass_no_service.
  - repeat constructor.
Defined.

Lemma C10_witness :
  ∃ g, LoadSpec Unmarshal no_plugins (bytes doc_no_service) = (Some g, None) ∧
       length (SLOGroup.SLOs g) = 1 ∧
       SLOGroup.SLOs g ≠ [] ∧
       (∀ i d, prometheusv1.Spec.SLOs no_service_spec !! i = Some d →
               ∃ slo, SLOGroup.SLOs g !! i = Some slo ∧
                      SLO.Name slo = prometheusv1.SLO.Name d ∧
                      SLO.Service slo = "" ∧
                      SLO.ID slo = "-" +:+ prometheusv1.SLO.Name d) ∧
       Forall (λ slo, SLO.Service slo = "" ∧ SLO.ID slo = "-" +:+ SLO.Name slo)
              (SLOGroup.SLOs g).
Proof.
  apply (C10_empty_service_is_accepted Unmarshal no_plugins
           (bytes doc_no_service) no_service_spec).
  - exact gates_pass_no_service.
  - reflexivity.
  - repeat constructor. intros p Hp. discriminate Hp.
Defined.

Lemma gates_pass_correct : gates_pass Unmarshal (bytes doc_correct) correct_spec.
Proof.
  split; [discriminate|]. split; [vm_compute; reflexivity|].
  split; [reflexivity | discriminate].
Qed.

Lemma decode_correct :
  Unmarshal (bytes doc_correct) prometheusv1.Spec.zero = (correct_spec, None).
Proof. vm_compute. reflexivity. Qed.

Lemma LoadSpec_accepts_iff_witness :
  ∃ g, LoadSpec Unmarshal no_plugins (bytes doc_correct) = (Some g, None).
Proof.
  apply (LoadSpec_accepts_iff Unmarshal no_plugins (bytes doc_correct)).
  exists correct_spec.
  split; [discriminate|]. split; [exact decode_correct|].
  split; [reflexivity|]. split; [discriminate|].
  repeat constructor.
Defined.

Lemma LoadSpec_error_has_a_cause_witness :
  ∃ s d p,
    Unmarshal (bytes doc_unknown_plugin) prometheusv1.Spec.zero = (s, None) ∧
    d ∈ prometheusv1.Spec.SLOs s ∧
    prometheusv1.SLI.Plugin (prometheusv1.SLO.SLI d) = Some p ∧
    prometheusv1.SLIPlugin.ID p = "unknown_plugin" ∧
    YAMLSpecLoader.plugins no_plugins !! prometheusv1.SLIPlugin.ID p = None.
Proof.
  destruct (LoadSpec_error_has_a_cause Unmarshal no_plugins (bytes doc_unknown_plugin)
              None (MapToModel (UnknownPlugin "unknown_plugin"))
              test_unknown_plugin_fails)
    as [[H _]|[(s & c & H & _)|[(s & H & _)|[(s & H & _)|(s & d & p & Hy & Hin & Hp & Hcase)]]]];
    try discriminate H.
  exists s, d, p. split; [exact Hy|]. split; [exact Hin|]. split; [exact Hp|].
  destruct Hcase as [[He Hnone]|(plugin & q & c & He & _)]; [|discriminate He].
  split; [|exact Hnone]. by injection He as <-.
Defined.

Lemma LoadSpec_without_plugins_witness :
  ∃ g, LoadSpec Unmarshal no_plugins (bytes doc_correct) = (Some g, None) ∧
       ∀ y', LoadSpec Unmarshal y' (bytes doc_correct) = (Some g, None).
Proof.
  apply (LoadSpec_without_plugins Unmarshal no_plugins (bytes doc_correct) correct_spec).
  - exact gates_pass_correct.
  - repeat constructor.
Defined.

Lemma LoadSpec_reads_named_plugins_only_witness :
  LoadSpec Unmarshal no_plugins (bytes doc_correct)
  = LoadSpec Unmarshal with_test_plugin (bytes doc_correct).
Proof.
  apply (LoadSpec_reads_named_plugins_only Unmarshal no_plugins with_test_plugin
           (bytes doc_correct)).
  intros s Hs. rewrite decode_correct in Hs. injection Hs as <-.
  intros d p Hin Hp.
  apply elem_of_cons in Hin as [->|Hin]; [discriminate Hp|].
  apply elem_of_cons in Hin as [->|Hin]; [discriminate Hp|].
  by apply elem_of_nil in Hin.
Defined.

Lemma LoadSpec_empty_registry_witness :
  LoadSpec Unmarshal (NewYAMLSpecLoader ∅) (bytes doc_unknown_plugin)
  = (None, Some (MapToModel (UnknownPlugin "unknown_plugin"))).
Proof.
  apply (LoadSpec_empty_registry Unmarshal (bytes doc_unknown_plugin)
           unknown_plugin_spec [] (plugin_slo "slo" "unknown_plugin" ∅) []
           {| prometheusv1.SLIPlugin.ID := "unknown_plugin";
              prometheusv1.SLIPlugin.Options := ∅ |}).
  - exact gates_pass_unknown_plugin.
  - reflexivity.
  - constructor.
  - reflexivity.
Defined.

Lemma loaded_window_and_service_witness :
  Forall (λ slo, SLO.Service slo = "test-svc" ∧
                 SLO.TimeWindow slo = 2592000000000000%Z ∧
                 (0 < SLO.TimeWindow slo < 2 ^ 63)%Z)
         [slo1_model; slo2_model].
Proof.
  exact (loaded_window_and_service Unmarshal no_plugins (bytes doc_correct)
           correct_spec correct_model loads_correct).
Defined.

Lemma gates_pass_odd_fields :
  gates_pass Unmarshal_more (bytes doc_odd_fields) odd_fields_spec.
Proof.
  split; [discriminate|]. split; [vm_compute; reflexivity|].
  split; [reflexivity | discriminate].
Qed.

Lemma gates_pass_repeated_name :
  gates_pass Unmarshal_more (bytes doc_repeated_name) repeated_name_spec.
Proof.
  split; [discriminate|]. split; [vm_compute; reflexivity|].
  split; [reflexivity | discriminate].
Qed.

Lemma loaded_fields_verbatim_witness :
  ∃ g, LoadSpec Unmarshal_more no_plugins (bytes doc_odd_fields) = (Some g, None) ∧
       ∀ i d, prometheusv1.Spec.SLOs odd_fields_spec !! i = Some d →
              ∃ slo, SLOGroup.SLOs g !! i = Some slo ∧
                     SLO.Name slo = prometheusv1.SLO.Name d ∧
                     SLO.Description slo = prometheusv1.SLO.Description d ∧
                     SLO.Objective slo = prometheusv1.SLO.Objective d.
Proof.
  apply (loaded_fields_verbatim Unmarshal_more no_plugins (bytes doc_odd_fields)
           odd_fields_spec).
  - exact gates_pass_odd_fields.
  - repeat constructor.
Defined.

Lemma loaded_alerts_witness :
  AlertMeta.Disable (SLO.PageAlertMeta slo1_model) = false ∧
  AlertMeta.Name (SLO.PageAlertMeta slo1_model) = "testAlert" ∧
  SLO.TicketAlertMeta slo2_model = AlertMeta.disabled.
Proof.
  destruct (loaded_alerts Unmarshal no_plugins (bytes doc_correct)
              correct_spec correct_model 0 slo1 slo1_model loads_correct eq_refl eq_refl)
    as (H1 & _ & _ & _ & H5 & _).
  destruct (loaded_alerts Unmarshal no_plugins (bytes doc_correct)
              correct_spec correct_model 1 slo2 slo2_model loads_correct eq_refl eq_refl)
    as (_ & _ & _ & H4 & _).
  split; [exact H1|]. split; [exact (H5 eq_refl) | exact (H4 eq_refl)].
Defined.

Lemma loaded_ids_follow_names_witness :
  ∃ g slo1 slo2,
    LoadSpec Unmarshal_more no_plugins (bytes doc_repeated_name) = (Some g, None) ∧
    SLOGroup.SLOs g !! 0 = Some slo1 ∧
    SLOGroup.SLOs g !! 1 = Some slo2 ∧
    (SLO.ID slo1 = SLO.ID slo2 ↔ "dup" = "dup").
Proof.
  apply (loaded_ids_follow_names Unmarshal_more no_plugins (bytes doc_repeated_name)
           repeated_name_spec 0 1 (bare_slo "dup") (bare_slo "dup")).
  - exact gates_pass_repeated_name.
  - repeat constructor.
  - reflexivity.
  - reflexivity.
Defined.

Lemma mapSpecToModel_app_witness :
  mapSpecToModel no_plugins (with_SLOs correct_spec ([slo1] ++ [slo2]))
  = (Some correct_model, None).
Proof.
  destruct (mapSpecToModel_app no_plugins correct_spec [slo1] [slo2]) as [H _].
  apply H.
  exists {| SLOGroup.SLOs := [slo1_model] |}, {| SLOGroup.SLOs := [slo2_model] |}.
  split; [vm_compute; reflexivity|]. split; [vm_compute; reflexivity|]. reflexivity.
Defined.

End Instances.
